(** * The Node.js language worker: message dispatch, function registry and
      app-start context

    A shallow embedding of [src/setupEventStream.ts],
    [src/coreApi/registerFunction.ts] and [src/startApp.ts], followed by the
    properties the design document states about them.

    Conventions.
    - A JavaScript object used as a dictionary is a [gmap string _]; a key
      that is absent stands for a property that is [undefined] or [null]
      (the code never tells the two apart: every read goes through
      [nonNullProp] or a truthiness test).
    - A call that has an effect outside the process (a log entry, a write on
      the event stream, the shutdown of the worker) is recorded, in order, in
      a list of effects.
    - A function that can throw returns its completion explicitly.
    - [handleMessage] is [async]; the embedding runs one message to its end
      before the next one, which is one of the schedules of the event loop.
    - What the three files import from files that are not part of the
      sources is a field of a class of collaborators, or a definition whose
      comment says what it stands for. *)

From stdpp Require Import gmap strings list fin_maps functions pretty.

(** * Part I: the model *)

(** ** Errors and thrown values *)
Module Errors.

(** A JavaScript [Error] object, with the two flags the worker sets and
    tests. *)
Record JsError := mkError {
  message : string;
  stack : option string;
  isAzureFunctionsSystemError : bool;
  isAzureFunctionsInternalException : bool
}.

(** A thrown value: an [Error] instance or anything else. *)
Inductive Thrown {NonError : Type} :=
| ThrownError (e : JsError)
| ThrownValue (v : NonError).
Arguments Thrown : clear implicits.

(** Modelled from the spec: [ensureErrorType] ([src/errors.ts]) is missing
    from the sources.  An [Error] instance is handed back as it is; any other
    thrown value is turned into an error by [errorOfValue], which is left
    open. *)
Definition ensureErrorType {NonError : Type} (errorOfValue : NonError -> JsError)
    (err : Thrown NonError) : JsError :=
  match err with
  | ThrownError e => e
  | ThrownValue v => errorOfValue v
  end.

Section Constructors.
(** The stack trace the engine records for an error built with a given
    message. *)
Variable captureStack : string -> option string.

(** [new Error(msg)] *)
Definition Error (msg : string) : JsError :=
  mkError msg (captureStack msg) false false.

(** Modelled from the spec: the class [AzFuncSystemError] ([src/errors.ts])
    is missing from the sources; it marks internal, system-level failures,
    which the dispatcher recognises by the flag
    [isAzureFunctionsSystemError]. *)
Definition AzFuncSystemError (msg : string) : JsError :=
  mkError msg (captureStack msg) true false.

(** Modelled from the spec: the class [InternalException]
    ([src/utils/InternalException.ts]) is missing from the sources; it is the
    registry's error for a violation of the registration window and carries
    the flag that [startApp] sets by hand on a loading failure. *)
Definition InternalException (msg : string) : JsError :=
  mkError msg (captureStack msg) false true.

(** Modelled from the spec: the class [ReadOnlyError]
    ([src/utils/ReadOnlyError.ts]) is missing from the sources; its message
    is the one the [startApp] test expects. *)
Definition ReadOnlyError (propertyName : string) : JsError :=
  Error ("Cannot assign to read only property '" +:+ propertyName +:+ "'").
End Constructors.

End Errors.

(** ** The protocol's enumerations and log entries *)
Module Rpc.

(** [rpc.RpcLog.Level] and [rpc.RpcLog.RpcLogCategory]. *)
Inductive LogLevel :=
| LevelTrace | LevelDebug | LevelInformation | LevelWarning
| LevelError | LevelCritical | LevelNone.

Inductive LogCategory := CategoryUser | CategorySystem | CategoryCustomMetric.

Record RpcLog := mkLog {
  logMessage : string;
  level : LogLevel;
  logCategory : LogCategory
}.

(** [rpc.StatusResult.Status], [rpc.IRpcException], [rpc.IStatusResult]. *)
Inductive Status := Failure | Success | Cancelled.

Record RpcException := mkException {
  exceptionMessage : string;
  stackTrace : option string
}.

Record StatusResult := mkResult {
  status : Status;
  exception : option RpcException
}.

(** [rpc.BindingInfo.Direction] *)
Inductive Direction := Direction_in | Direction_out | Direction_inout.

End Rpc.

(** ** The dispatch loop ([src/setupEventStream.ts]) *)
Module SetupEventStream.
Import Errors Rpc.

Section Model.
(** The request messages, the part of a response other than [result], the
    state of the worker that handlers read and change, and the thrown values
    that are not errors. *)
Context {Request Body W NonError : Type}.

(** A response payload: whatever the handler puts in it, and the [result]
    property the dispatcher assigns. *)
Record Response := mkResponse {
  body : Body;
  result : option StatusResult
}.

(** [response.result = r] *)
Definition setResult (response : Response) (r : StatusResult) : Response :=
  {| body := body response; result := Some r |}.

(** A property of an outbound envelope: the empty object [{}] or a response
    payload. *)
Inductive OutField :=
| EmptyObject
| Payload (r : Response).

(** [rpc.StreamingMessage] as received: the correlation id, the name the
    [content] accessor yields and the content properties. *)
Record InMsg := mkIn {
  inRequestId : string;
  content : option string;
  inFields : gmap string Request
}.

(** [rpc.IStreamingMessage] as built by the dispatcher.  The response names
    are names of content properties, none of which is [requestId]. *)
Record OutMsg := mkOut {
  requestId : string;
  outFields : gmap string OutField
}.

(** [outMsg[name] = v] *)
Definition setField (outMsg : OutMsg) (name : string) (v : OutField) : OutMsg :=
  {| requestId := requestId outMsg; outFields := <[name := v]> (outFields outMsg) |}.

Inductive Effect :=
| WorkerLog (l : RpcLog)
| SystemErrorLog (msg detail : string)
| StreamWrite (m : OutMsg)
| TerminateCall (r : Request).

(** Modelled from the spec: [systemError] ([src/utils/Logger.ts]) is missing
    from the sources; it reports an internal failure at error severity.
    [worker.log] reports at the level of its entry. *)
Definition severity (e : Effect) : option LogLevel :=
  match e with
  | WorkerLog l => Some (level l)
  | SystemErrorLog _ _ => Some LevelError
  | _ => None
  end.

(** What a call of [worker.eventStream.write] does: its effects and, when it
    throws, the thrown value. *)
Definition Writer : Type := OutMsg -> list Effect * option (Thrown NonError).

(** The write of the transport itself, which accepts every envelope. *)
Definition transportWrite : Writer := fun msg => ([StreamWrite msg], None).

(** The interface [EventHandler]. *)
Record EventHandler := mkHandler {
  handleEvent : Request -> W -> list RpcLog * W * (Thrown NonError + Response);
  getDefaultResponse : Request -> Response;
  responseName : string
}.

(** What [setupEventStream.ts] imports. *)
Class Collaborators := {
  captureStack : string -> option string;
  errorOfValue : NonError -> JsError;
  (** [rpc.StreamingMessage.verify]: [None] for a well-formed message, the
      reason otherwise. *)
  verify : OutMsg -> option string;
  FunctionEnvironmentReloadHandler : EventHandler;
  FunctionLoadHandler : EventHandler;
  InvocationHandler : EventHandler;
  WorkerInitHandler : EventHandler;
  FunctionsMetadataHandler : EventHandler;
  (** [terminateWorker] ([src/eventHandlers/terminateWorker.ts]). *)
  terminateWorker : Request -> W -> list RpcLog * W * option (Thrown NonError);
  (** What [nonNullProp] throws for a property that is null or undefined. *)
  nonNullFailure : string -> Thrown NonError
}.

Context `{!Collaborators}.

(** Modelled from the spec: [nonNullProp] ([src/utils/nonNull.ts]) is missing
    from the sources; it yields the property when it is neither null nor
    undefined and throws otherwise. *)
Definition nonNullProp (inMsg : InMsg) (name : string) : Thrown NonError + Request :=
  match inFields inMsg !! name with
  | Some v => inr v
  | None => inl (nonNullFailure name)
  end.

(** The wrapper [checkWrite] installed by [setupEventStream]. *)
Definition checkWrite (oldWrite : Writer) : Writer := fun msg =>
  match verify msg with
  | Some msgError =>
      ([SystemErrorLog "Worker malformed message" msgError],
       Some (ThrownError (AzFuncSystemError captureStack msgError)))
  | None => oldWrite msg
  end.

(** The listener of the stream's [error] event; it always throws. *)
Definition onStreamError (err : string) : list Effect * Thrown NonError :=
  ([SystemErrorLog "Worker encountered event stream error: " err],
   ThrownError (AzFuncSystemError captureStack err)).

(** The branch of the [switch] a content name selects.  The name is kept
    where the branch reads the property of that name. *)
Inductive Route :=
| RouteHandler (eventName : string) (eventHandler : EventHandler)
| RouteTerminate (eventName : string)
| RouteStatus
| RouteNotImplemented
| RouteDefault.

Definition route (eventName : option string) : Route :=
  match eventName with
  | None => RouteDefault
  | Some n =>
      if String.eqb n "functionEnvironmentReloadRequest"
      then RouteHandler n FunctionEnvironmentReloadHandler
      else if String.eqb n "functionLoadRequest"
      then RouteHandler n FunctionLoadHandler
      else if String.eqb n "invocationRequest"
      then RouteHandler n InvocationHandler
      else if String.eqb n "workerInitRequest"
      then RouteHandler n WorkerInitHandler
      else if String.eqb n "workerTerminate" then RouteTerminate n
      else if String.eqb n "workerStatusRequest" then RouteStatus
      else if String.eqb n "functionsMetadataRequest"
      then RouteHandler n FunctionsMetadataHandler
      else if String.eqb n "closeSharedMemoryResourcesRequest" then RouteNotImplemented
      else if String.eqb n "fileChangeEventRequest" then RouteNotImplemented
      else if String.eqb n "functionLoadRequestCollection" then RouteNotImplemented
      else if String.eqb n "invocationCancel" then RouteNotImplemented
      else if String.eqb n "startStream" then RouteNotImplemented
      else if String.eqb n "workerHeartbeat" then RouteNotImplemented
      else RouteDefault
  end.

(** The [case] labels of the [switch]. *)
Definition enumeratedKinds : list string :=
  [ "functionEnvironmentReloadRequest"; "functionLoadRequest";
    "invocationRequest"; "workerInitRequest"; "workerTerminate";
    "workerStatusRequest"; "functionsMetadataRequest";
    "closeSharedMemoryResourcesRequest"; "fileChangeEventRequest";
    "functionLoadRequestCollection"; "invocationCancel"; "startStream";
    "workerHeartbeat" ].

(** The labels that share the branch [// Not yet implemented]. *)
Definition notImplementedKinds : list string :=
  [ "closeSharedMemoryResourcesRequest"; "fileChangeEventRequest";
    "functionLoadRequestCollection"; "invocationCancel"; "startStream";
    "workerHeartbeat" ].

(** The template literal of the [default] branch; an undefined name prints
    as [undefined]. *)
Definition noHandlerMessage (eventName : option string) : string :=
  "Worker had no handler for message '" +:+ default "undefined" eventName +:+ "'".

(** How the promise of [handleMessage] settles. *)
Inductive Outcome :=
| Resolved
| Rejected (err : Thrown NonError).

(** The promise rejects when the last call threw. *)
Definition outcomeOf (thrown : option (Thrown NonError)) : Outcome :=
  match thrown with
  | Some err => Rejected err
  | None => Resolved
  end.

(** How control leaves the [try] block: by a [return], by reaching its end,
    or by a throw, with the locals [eventHandler] and [request] as they are
    at that point. *)
Inductive TryExit :=
| Returned
| Completed (eventHandler : EventHandler) (outMsg : OutMsg)
| Threw (err : Thrown NonError) (eventHandler : option EventHandler)
    (request : option Request).

Definition successResult : StatusResult :=
  {| status := Success; exception := None |}.

Definition failureResult (error : JsError) : StatusResult :=
  {| status := Failure;
     exception := Some {| exceptionMessage := message error;
                          stackTrace := stack error |} |}.

Definition tryBlock (write : Writer) (inMsg : InMsg) (outMsg : OutMsg) (w : W)
    : list Effect * W * TryExit :=
  let eventName := content inMsg in
  match route eventName with
  | RouteTerminate name =>
      match nonNullProp inMsg name with
      | inl err => ([], w, Threw err None None)
      | inr msg =>
          let '(logs, w', thrown) := terminateWorker msg w in
          (TerminateCall msg :: (WorkerLog <$> logs), w',
           match thrown with
           | Some err => Threw err None None
           | None => Returned
           end)
      end
  | RouteStatus =>
      let outMsg := setField outMsg "workerStatusResponse" EmptyObject in
      let '(effs, thrown) := write outMsg in
      (effs, w,
       match thrown with
       | Some err => Threw err None None
       | None => Returned
       end)
  | RouteNotImplemented => ([], w, Returned)
  | RouteDefault =>
      ([], w,
       Threw (ThrownError (AzFuncSystemError captureStack (noHandlerMessage eventName)))
             None None)
  | RouteHandler name eventHandler =>
      match nonNullProp inMsg name with
      | inl err => ([], w, Threw err (Some eventHandler) None)
      | inr request =>
          let '(logs, w', completion) := handleEvent eventHandler request w in
          (WorkerLog <$> logs, w',
           match completion with
           | inl err => Threw err (Some eventHandler) (Some request)
           | inr response =>
               Completed eventHandler
                 (setField outMsg (responseName eventHandler)
                    (Payload (setResult response successResult)))
           end)
      end
  end.

(** [if (error.isAzureFunctionsSystemError) worker.log(...)] *)
Definition logSystemError (error : JsError) : list Effect :=
  if isAzureFunctionsSystemError error
  then [WorkerLog {| logMessage := message error;
                     level := LevelError;
                     logCategory := CategorySystem |}]
  else [].

(** The [catch] block: the log entry for a system error and the failure
    response when both [eventHandler] and [request] are set (a request is an
    object, hence truthy). *)
Definition catchBlock (err : Thrown NonError) (eventHandler : option EventHandler)
    (request : option Request) (outMsg : OutMsg) : list Effect * OutMsg :=
  let error := ensureErrorType errorOfValue err in
  let logged := logSystemError error in
  match eventHandler, request with
  | Some h, Some req =>
      (logged,
       setField outMsg (responseName h)
         (Payload (setResult (getDefaultResponse h req) (failureResult error))))
  | _, _ => (logged, outMsg)
  end.

(** The statement after [try]/[catch]: [if (eventHandler) write(outMsg)]. *)
Definition finalWrite (write : Writer) (eventHandler : option EventHandler)
    (outMsg : OutMsg) : list Effect * Outcome :=
  match eventHandler with
  | Some _ =>
      let '(effs, thrown) := write outMsg in
      (effs, outcomeOf thrown)
  | None => ([], Resolved)
  end.

Definition handleMessage (write : Writer) (inMsg : InMsg) (w : W)
    : list Effect * W * Outcome :=
  let outMsg := {| requestId := inRequestId inMsg; outFields := ∅ |} in
  let '(effs, w', exit) := tryBlock write inMsg outMsg w in
  match exit with
  | Returned => (effs, w', Resolved)
  | Completed eventHandler outMsg' =>
      let '(sent, outcome) := finalWrite write (Some eventHandler) outMsg' in
      (effs ++ sent, w', outcome)
  | Threw err eventHandler request =>
      let '(logged, outMsg') := catchBlock err eventHandler request outMsg in
      let '(sent, outcome) := finalWrite write eventHandler outMsg' in
      (effs ++ logged ++ sent, w', outcome)
  end.

(** The event stream: its [write] and its listeners, in the order in which
    they were added.  A [data] listener is given the [write] the stream has
    when the listener is called: [handleMessage] reads
    [worker.eventStream.write] when it runs. *)
Record EventStream := mkStream {
  write : Writer;
  onData : list (Writer -> InMsg -> W -> list Effect * W * Outcome);
  onError : list (string -> list Effect * Thrown NonError)
}.

(** [setupEventStream]: one more [data] listener and one more [error]
    listener are added, and [write] is wrapped. *)
Definition setupEventStream (eventStream : EventStream) : EventStream :=
  let oldWrite := write eventStream in
  {| write := checkWrite oldWrite;
     onData := onData eventStream ++ [handleMessage];
     onError := onError eventStream ++ [onStreamError] |}.

(** The worker's stream once [setupEventStream] has run over the transport. *)
Definition workerStream : EventStream :=
  setupEventStream {| write := transportWrite; onData := []; onError := [] |}.

(** The stream emits [data]: its listeners are called in order, each with
    the stream's [write]. *)
Fixpoint callListeners
    (listeners : list (Writer -> InMsg -> W -> list Effect * W * Outcome))
    (write : Writer) (inMsg : InMsg) (w : W) : list Effect * W * list Outcome :=
  match listeners with
  | [] => ([], w, [])
  | listener :: rest =>
      let '(effs, w', outcome) := listener write inMsg w in
      let '(effs', w'', outcomes) := callListeners rest write inMsg w' in
      (effs ++ effs', w'', outcome :: outcomes)
  end.

Definition emitData (eventStream : EventStream) (inMsg : InMsg) (w : W)
    : list Effect * W * list Outcome :=
  callListeners (onData eventStream) (write eventStream) inMsg w.

(** The [data] listener called on a sequence of inbound envelopes. *)
Fixpoint serve (write : Writer) (msgs : list InMsg) (w : W)
    : list Effect * W * list Outcome :=
  match msgs with
  | [] => ([], w, [])
  | inMsg :: rest =>
      let '(effs, w', outcome) := handleMessage write inMsg w in
      let '(effs', w'', outcomes) := serve write rest w' in
      (effs ++ effs', w'', outcome :: outcomes)
  end.

(** The envelopes handed to the transport among a list of effects. *)
Definition written (effs : list Effect) : list OutMsg :=
  omap (fun e => match e with StreamWrite m => Some m | _ => None end) effs.

End Model.
End SetupEventStream.

(** ** The function registry ([src/coreApi/registerFunction.ts]) *)
Module RegisterFunction.
Import Errors Rpc.

Section Model.
(** The properties of a binding other than [direction] and [name], the
    properties of a function's metadata the registration does not touch, and
    the callbacks. *)
Context {Props Other Callback : Type}.

(** [RpcBindingInfo]; the direction is optional. *)
Record RpcBindingInfo := mkBinding {
  direction : option Direction;
  bindingProps : Props
}.

(** The object [convertToRawBinding] serialises. *)
Record RawBinding := mkRaw {
  rawName : string;
  rawDirection : option string;
  rawProps : Props
}.

(** [FunctionMetadata], with the properties of [rpc.IRpcFunctionMetadata]
    that the registration assigns.  [bindings] lists the entries of the
    object in the order [Object.entries] enumerates them. *)
Record FunctionMetadata := mkMetadata {
  name : string;
  bindings : list (string * RpcBindingInfo);
  functionId : option string;
  rawBindings : option (list string);
  scriptFile : option string;
  otherMetadata : Other
}.

(** A registered function: the caller's metadata object, by reference, and
    the callback. *)
Record RegisteredFunction := mkRegistered {
  metadata : nat;
  callback : Callback
}.

(** The part of [WorkerChannel] the registration reads and writes. *)
Record WorkerChannel := mkChannel {
  hasIndexedFunctions : bool;
  functions : gmap string RegisteredFunction
}.

(** The channel, how many identifiers [uuid()] has handed out, and the
    metadata objects: [objects p ref] is the object the reference [ref]
    denotes. *)
Record Process := mkProcess {
  channel : WorkerChannel;
  uuidCalls : nat;
  objects : nat -> FunctionMetadata
}.

(** Modelled from the spec: the class [Disposable] ([src/Disposable.ts]) is
    missing from the sources; [dispose()] invokes the function the token was
    built with. *)
Record Disposable := mkDisposable {
  dispose : Process -> JsError + Process
}.

(** What [registerFunction.ts] imports: [uuid i] is the identifier the
    [i]-th call of [uuid()] returns in this run. *)
Class Collaborators := {
  captureStack : string -> option string;
  uuid : nat -> string;
  JSON_stringify : RawBinding -> string
}.

Context `{!Collaborators}.

(** The copy [{ ...binding, name }] with its direction replaced by the
    [switch]; a binding without direction matches no [case]. *)
Definition convertToRawBinding (name : string) (binding : RpcBindingInfo) : string :=
  let rawDirection :=
    match direction binding with
    | Some Direction_in => Some "in"
    | Some Direction_out => Some "out"
    | Some Direction_inout => Some "inout"
    | None => None
    end in
  JSON_stringify {| rawName := name;
                    rawDirection := rawDirection;
                    rawProps := bindingProps binding |}.

(** The function handed to [new Disposable(...)]. *)
Definition disposeFunction (functionId : string) (p : Process) : JsError + Process :=
  if hasIndexedFunctions (channel p)
  then inl (InternalException captureStack
              "A function can only be disposed during app startup.")
  else inr {| channel := {| hasIndexedFunctions := hasIndexedFunctions (channel p);
                            functions := delete functionId (functions (channel p)) |};
              uuidCalls := uuidCalls p;
              objects := objects p |}.

(** The three assignments to [rpcMetadata]. *)
Definition assign (functionId : string) (rpcMetadata : FunctionMetadata)
    : FunctionMetadata :=
  {| name := name rpcMetadata;
     bindings := bindings rpcMetadata;
     functionId := Some functionId;
     rawBindings :=
       Some (map (fun entry => convertToRawBinding (fst entry) (snd entry))
                 (bindings rpcMetadata));
     scriptFile := Some "n/a";
     otherMetadata := otherMetadata rpcMetadata |}.

(** [metadata] is a reference; [rpcMetadata] is the same reference under
    another type, so that the assignments change the caller's object and
    the registry holds that object. *)
Definition registerFunction (p : Process) (metadata : nat)
    (callback : Callback) : JsError + (Disposable * Process) :=
  if hasIndexedFunctions (channel p)
  then inl (InternalException captureStack
              "A function can only be registered during app startup.")
  else
    let functionId := uuid (uuidCalls p) in
    let rpcMetadata := metadata in
    inr ({| dispose := disposeFunction functionId |},
         {| channel :=
              {| hasIndexedFunctions := hasIndexedFunctions (channel p);
                 functions := <[functionId := {| metadata := rpcMetadata;
                                                 callback := callback |}]>
                                (functions (channel p)) |};
            uuidCalls := S (uuidCalls p);
            objects := <[rpcMetadata := assign functionId (objects p rpcMetadata)]>
                         (objects p) |}).

(** A run of registrations, one after the other, as the loading of an
    application performs them; the first failure ends it. *)
Fixpoint registerAll (calls : list (nat * Callback)) (p : Process)
    : JsError + (list Disposable * Process) :=
  match calls with
  | [] => inr ([], p)
  | (metadata, callback) :: rest =>
      match registerFunction p metadata callback with
      | inl err => inl err
      | inr (token, p') =>
          match registerAll rest p' with
          | inl err => inl err
          | inr (tokens, p'') => inr (token :: tokens, p'')
          end
      end
  end.

(** Identifiers assigned monotonically, in the words of the design
    document: each one comes after the ones assigned before it, in the order
    of strings. *)
Definition increasing (ids : list string) : Prop :=
  forall i j a b, i < j -> ids !! i = Some a -> ids !! j = Some b ->
    String.compare a b = Lt.

(** The lowercase name of a direction, in the words of the design document:
    one of [in], [out] and [inout]. *)
Definition directionName (d : Direction) : string :=
  match d with
  | Direction_in => "in"
  | Direction_out => "out"
  | Direction_inout => "inout"
  end.

(** The registry holds only identifiers [uuid()] has already handed out; it
    holds in the initial, empty registry and every registration and disposal
    keeps it. *)
Definition drawnOnly (p : Process) : Prop :=
  forall id, is_Some (functions (channel p) !! id) ->
    exists i, i < uuidCalls p /\ uuid i = id.

End Model.
End RegisterFunction.

(** ** Starting an application ([src/startApp.ts]) *)
Module StartApp.
Import Errors Rpc.

(** References to objects on the heap. *)
Abbreviation loc := nat.

Inductive Value :=
| VUndefined
| VString (s : string)
| VObject (l : loc).

Record PackageJson := mkPackageJson {
  main : option string
}.

(** The part of [WorkerChannel] that [startApp] reads; the two hook-data
    properties refer to objects on the heap. *)
Record WorkerChannel := mkChannel {
  appHookData : loc;
  appLevelOnlyHookData : loc;
  packageJson : PackageJson
}.

(** The objects, the channel and the entries [channel.log] has emitted. *)
Record Store := mkStore {
  heap : gmap loc (gmap string Value);
  channel : WorkerChannel;
  logs : list RpcLog
}.

(** The double-quote character of the template literals. *)
Definition dquote : string := String (Ascii.ascii_of_nat 34) EmptyString.

Section Model.
Context {NonError : Type}.

(** A computation on the store that returns or throws. *)
Definition M (A : Type) : Type := Store -> Store * (Thrown NonError + A).

Definition ret {A} (a : A) : M A := fun st => (st, inr a).

Definition throw {A} (err : Thrown NonError) : M A := fun st => (st, inl err).

Definition bind {A B} (m : M A) (k : A -> M B) : M B := fun st =>
  match m st with
  | (st', inr a) => k a st'
  | (st', inl err) => (st', inl err)
  end.

Definition tryCatch {A} (m : M A) (handler : Thrown NonError -> M A) : M A := fun st =>
  match m st with
  | (st', inr a) => (st', inr a)
  | (st', inl err) => handler err st'
  end.

Definition gets {A} (f : Store -> A) : M A := fun st => (st, inr (f st)).

(** [channel.log(entry)] *)
Definition log (entry : RpcLog) : M unit := fun st =>
  ({| heap := heap st; channel := channel st; logs := logs st ++ [entry] |}, inr tt).

Notation "x <- m ;; k" := (bind m (fun x => k))
  (at level 100, m at next level, right associativity).
Notation "m ;; k" := (bind m (fun _ => k))
  (at level 100, right associativity).

(** [for (const x of xs) body(x)] *)
Fixpoint forOf {A} (xs : list A) (body : A -> M unit) : M unit :=
  match xs with
  | [] => ret tt
  | x :: rest => body x ;; forOf rest body
  end.

(** A property of an object: a value, or a pair of accessors. *)
Inductive Property :=
| DataProperty (value : Value)
| AccessorProperty (get : Store -> Value) (set : Value -> M unit).

(** [obj[name]] *)
Definition readProperty (obj : gmap string Property) (name : string) (st : Store) : Value :=
  match obj !! name with
  | Some (DataProperty v) => v
  | Some (AccessorProperty get _) => get st
  | None => VUndefined
  end.

(** [obj[name] = v]: a setter runs in place of the assignment. *)
Definition assignProperty (obj : gmap string Property) (name : string) (v : Value) : M (gmap string Property) :=
  match obj !! name with
  | Some (AccessorProperty _ set) => set v ;; ret obj
  | _ => ret (<[name := DataProperty v]> obj)
  end.

(** [target[key] = v] for a value read from an object: the assignment lands
    in the object the reference points to. *)
Definition assignMember (target : Value) (key : string) (v : Value) : M unit := fun st =>
  match target with
  | VObject l =>
      ({| heap := alter (fun o => <[key := v]> o) l (heap st);
          channel := channel st;
          logs := logs st |}, inr tt)
  | _ => (st, inr tt)
  end.

(** [target[key]] *)
Definition readMember (target : Value) (key : string) (st : Store) : Value :=
  match target with
  | VObject l => default VUndefined (heap st !! l ≫= fun o => o !! key)
  | _ => VUndefined
  end.

(** What [startApp.ts] imports or calls on the channel.  [restack error msg]
    is what [error.stack] reads as once [error.message] has been assigned
    [msg]: the engine formats the stack of an error when it is first read, so
    that it can carry the new message. *)
Class Collaborators := {
  captureStack : string -> option string;
  restack : JsError -> string -> option string;
  errorOfValue : NonError -> JsError;
  updatePackageJson : string -> M unit;
  globby : string -> string -> M (list string);
  loadScriptFile : string -> PackageJson -> M unit;
  path_join : string -> string -> string;
  executeHooks : string -> gmap string Property -> M unit
}.

Context `{!Collaborators}.

Definition debugLog (msg : string) : RpcLog :=
  {| logMessage := msg; level := LevelDebug; logCategory := CategorySystem |}.

(** The body of the [try] statement of [loadEntryPointFile]. *)
Definition loadFiles (functionAppDirectory entryPointPattern : string) : M unit :=
  files <- globby entryPointPattern functionAppDirectory ;;
  if bool_decide (length files = 0)
  then throw (ThrownError
         (Error captureStack "Found zero files matching the supplied pattern"))
  else
    forOf files (fun file =>
      log (debugLog ("Loading entry point file " +:+ dquote +:+ file +:+ dquote)) ;;
      pj <- gets (fun st => packageJson (channel st)) ;;
      loadScriptFile (path_join functionAppDirectory file) pj ;;
      log (debugLog ("Loaded entry point file " +:+ dquote +:+ file +:+ dquote))).

(** The [catch] block: the caught value, made an error, is flagged, given
    the new message and thrown again.  It is the same object; its [stack] is
    read after the assignment. *)
Definition rethrown (entryPointPattern : string) (err : Thrown NonError) : JsError :=
  let error := ensureErrorType errorOfValue err in
  let newMessage :=
    "Worker was unable to load entry point " +:+ dquote +:+ entryPointPattern
    +:+ dquote +:+ ": " +:+ message error in
  {| message := newMessage;
     stack := restack error newMessage;
     isAzureFunctionsSystemError := isAzureFunctionsSystemError error;
     isAzureFunctionsInternalException := true |}.

Definition loadEntryPointFile (functionAppDirectory : string) : M unit :=
  entryPointPattern <- gets (fun st => main (packageJson (channel st))) ;;
  match entryPointPattern with
  | Some pattern =>
      if bool_decide (pattern = EmptyString) then ret tt
      else
        tryCatch (loadFiles functionAppDirectory pattern)
          (fun err => throw (ThrownError (rethrown pattern err)))
  | None => ret tt
  end.

(** The object literal [appStartContext]. *)
Definition appStartContext (functionAppDirectory : string) : gmap string Property :=
  {[ "hookData" :=
       AccessorProperty
         (fun st => VObject (appLevelOnlyHookData (channel st)))
         (fun _obj => throw (ThrownError (ReadOnlyError captureStack "hookData")));
     "appHookData" :=
       AccessorProperty
         (fun st => VObject (appHookData (channel st)))
         (fun _obj => throw (ThrownError (ReadOnlyError captureStack "appHookData")));
     "functionAppDirectory" := DataProperty (VString functionAppDirectory) ]}.

Definition startApp (functionAppDirectory : string) : M unit :=
  updatePackageJson functionAppDirectory ;;
  loadEntryPointFile functionAppDirectory ;;
  executeHooks "appStart" (appStartContext functionAppDirectory).

End Model.
End StartApp.

(** ** A small worker, used to run the model on concrete messages *)
Module Sample.
Import Errors Rpc.

Definition sampleStack (msg : string) : option string :=
  Some ("Error: " +:+ msg).

Section Dispatch.
Import SetupEventStream.

(** Requests and response bodies are strings, the worker state counts the
    events handled, non-error thrown values are strings. *)
Definition sampleHandler (responseName : string) : @EventHandler string string nat string :=
  {| handleEvent := fun request w =>
       if bool_decide (request = "boom")
       then ([], w, inl (ThrownError (Error sampleStack "boom")))
       else ([], S w, inr {| body := request; result := None |});
     getDefaultResponse := fun _ => {| body := "default"; result := None |};
     responseName := responseName |}.

#[export] Instance sampleCollaborators : @Collaborators string string nat string :=
  {| captureStack := sampleStack;
     errorOfValue := fun v => Error sampleStack v;
     verify := fun msg =>
       if bool_decide (requestId msg = "bad")
       then Some "requestId: string expected" else None;
     FunctionEnvironmentReloadHandler := sampleHandler "functionEnvironmentReloadResponse";
     FunctionLoadHandler := sampleHandler "functionLoadResponse";
     InvocationHandler := sampleHandler "invocationResponse";
     WorkerInitHandler := sampleHandler "workerInitResponse";
     FunctionsMetadataHandler := sampleHandler "functionMetadataResponse";
     terminateWorker := fun _ w => ([], w, None);
     nonNullFailure := fun name =>
       ThrownError (AzFuncSystemError sampleStack
         ("Internal error: Expected value to be neither null nor undefined: " +:+ name)) |}.

Definition sampleIn (id kind : string) (request : option string) : @InMsg string :=
  {| inRequestId := id;
     content := Some kind;
     inFields := match request with
                 | Some r => {[ kind := r ]}
                 | None => ∅
                 end |}.

End Dispatch.

Section Registry.
Import RegisterFunction.

(** Bindings carry their type, functions carry nothing else, callbacks are
    numbered; the identifiers are the decimal numerals. *)
#[export] Instance sampleRegistry : @Collaborators string :=
  {| captureStack := sampleStack;
     uuid := fun i => pretty i;
     JSON_stringify := fun raw =>
       rawName raw +:+ ":" +:+ default "-" (rawDirection raw) +:+ ":" +:+ rawProps raw |}.

Definition sampleMetadata (name : string) : @FunctionMetadata string unit :=
  {| name := name;
     bindings := [("req", {| direction := Some Direction_in; bindingProps := "httpTrigger" |});
                  ("res", {| direction := Some Direction_out; bindingProps := "http" |});
                  ("doc", {| direction := None; bindingProps := "blob" |})];
     functionId := None;
     rawBindings := None;
     scriptFile := None;
     otherMetadata := tt |}.

(** The object behind the reference [ref] is a function named after it. *)
Definition sampleObjects (ref : nat) : @FunctionMetadata string unit :=
  sampleMetadata ("f" +:+ pretty ref).

Definition startup : @Process string unit nat :=
  {| channel := {| hasIndexedFunctions := false; functions := ∅ |};
     uuidCalls := 0;
     objects := sampleObjects |}.

Definition indexed : @Process string unit nat :=
  {| channel := {| hasIndexedFunctions := true; functions := ∅ |};
     uuidCalls := 0;
     objects := sampleObjects |}.

(** Two identifiers of the kind [uuid()] returns. *)
Definition firstId : string := "9b1deb4d-3b7d-4bad-9bdf-2b0d7b3dcb6d".
Definition secondId : string := "1b9d6bcd-bbfd-4b2d-9b5d-ab8dfbbd4bed".

(** A run in which [uuid()] returns [first], then [second]. *)
Definition drawing (first second : string) : @Collaborators string :=
  {| captureStack := sampleStack;
     uuid := fun i => match i with 0 => first | 1 => second | _ => pretty i end;
     JSON_stringify := fun raw =>
       rawName raw +:+ ":" +:+ default "-" (rawDirection raw) +:+ ":" +:+ rawProps raw |}.

End Registry.

Section StartUp.
Import StartApp.

(** Modelled from the spec: [executeHooks] ([src/WorkerChannel.ts]) is
    missing from the sources.  With no callback for the stage nothing
    happens; otherwise the callbacks run in registration order against the
    one context, between two log entries, and the first failure ends the
    run. *)
Definition sampleExecuteHooks (hooks : list (gmap string (@Property string) → @M string unit))
    (hookName : string) (context : gmap string (@Property string)) : @M string unit :=
  if bool_decide (length hooks = 0) then ret tt
  else
    bind (log (debugLog ("Executing " +:+ pretty (length hooks) +:+ " " +:+ dquote
                         +:+ hookName +:+ dquote +:+ " hooks"))) (λ _,
    bind (forOf hooks (λ hook, hook context)) (λ _,
    log (debugLog ("Executed " +:+ dquote +:+ hookName +:+ dquote +:+ " hooks")))).

(** An application without [package.json] whose start hooks are [hooks]. *)
Definition sampleApp (hooks : list (gmap string (@Property string) → @M string unit))
    : @Collaborators string :=
  {| captureStack := sampleStack;
     restack := fun _ message => sampleStack message;
     errorOfValue := fun v => Error sampleStack v;
     updatePackageJson := fun _ => ret tt;
     globby := fun _ _ => ret [];
     loadScriptFile := fun _ _ => ret tt;
     path_join := fun dir file => dir +:+ "/" +:+ file;
     executeHooks := sampleExecuteHooks hooks |}.

(** [context.hookData.hello = 'world'] *)
Definition hookSetsHello (context : gmap string (@Property string)) : @M string unit :=
  fun st => assignMember (readProperty context "hookData" st) "hello" (VString "world") st.

(** [context.appHookData.seen = context.hookData.hello] *)
Definition hookCopiesHello (context : gmap string (@Property string)) : @M string unit :=
  fun st =>
    assignMember (readProperty context "appHookData" st) "seen"
      (readMember (readProperty context "hookData" st) "hello" st) st.

(** [context.hookData = { hello: 'world' }], the new object being at [l]. *)
Definition hookAssignsHookData (l : loc) (context : gmap string (@Property string))
    : @M string unit :=
  bind (assignProperty context "hookData" (VObject l)) (λ _, ret tt).

(** Two empty hook-data objects, at 1 and 2. *)
Definition freshStore : Store :=
  {| heap := {[ 1 := ∅; 2 := ∅ ]};
     channel := {| appHookData := 1;
                   appLevelOnlyHookData := 2;
                   packageJson := {| main := None |} |};
     logs := [] |}.

End StartUp.
End Sample.

(** ** Vocabulary for the further properties *)
Module Shapes.
Import Errors Rpc SetupEventStream.

Section Dispatch.
Context {Request Body W NonError : Type}.
Context `{!@Collaborators Request Body W NonError}.

(** The content of the envelopes the dispatcher builds: nothing, the empty
    acknowledgement of a status probe, or one response under the name of the
    handler's response, whose [result] is set to success without exception or
    to failure with one. *)
Definition envelopeShape (inMsg : @InMsg Request) (out : @OutMsg Body) : Prop :=
  outFields out = ∅
  ∨ outFields out = {[ "workerStatusResponse" := EmptyObject ]}
  ∨ ∃ name h r st,
      route (content inMsg) = RouteHandler name h
      ∧ outFields out = {[ responseName h := Payload r ]}
      ∧ result r = Some st
      ∧ (status st = Success ∧ exception st = None
         ∨ status st = Failure ∧ is_Some (exception st)).

End Dispatch.

Section Loading.
Import StartApp.

(** The store after [channel.log] has emitted [entries]. *)
Definition logged (st : Store) (entries : list RpcLog) : Store :=
  {| heap := heap st; channel := channel st; logs := logs st ++ entries |}.

(** The two entries that frame the loading of [file]. *)
Definition loadingLog (file : string) : list RpcLog :=
  [ debugLog ("Loading entry point file " +:+ dquote +:+ file +:+ dquote);
    debugLog ("Loaded entry point file " +:+ dquote +:+ file +:+ dquote) ].

End Loading.
End Shapes.

(** ** An application with an entry point, to run the loading on *)
Module EntryPointSample.
Import Errors Rpc StartApp Sample.

(** The pattern [src/*.js] matches two files and [dist/*.js] one; any other
    pattern matches no file.  The files whose paths are in [broken] do not
    load.  The start hooks are [hooks]. *)
Definition loaderApp (broken : list string)
    (hooks : list (gmap string (@Property string) → @M string unit))
    : @Collaborators string :=
  {| captureStack := sampleStack;
     restack := fun _ message => sampleStack message;
     errorOfValue := fun v => Error sampleStack v;
     updatePackageJson := fun _ => ret tt;
     globby := fun pattern _ =>
       if bool_decide (pattern = "src/*.js") then ret ["index.js"; "extra.js"]
       else if bool_decide (pattern = "dist/*.js") then ret ["main.js"]
       else ret [];
     loadScriptFile := fun path _ =>
       if bool_decide (path ∈ broken) then throw (ThrownValue "Unexpected token")
       else ret tt;
     path_join := fun dir file => dir +:+ "/" +:+ file;
     executeHooks := sampleExecuteHooks hooks |}.

(** The store of [freshStore] with [main] set in [package.json]. *)
Definition storeWithMain (pattern : option string) : Store :=
  {| heap := heap freshStore;
     channel := {| appHookData := 1;
                   appLevelOnlyHookData := 2;
                   packageJson := {| main := pattern |} |};
     logs := [] |}.

(** A store in which both hook-data properties refer to one object. *)
Definition aliasedStore : Store :=
  {| heap := {[ 1 := ∅ ]};
     channel := {| appHookData := 1;
                   appLevelOnlyHookData := 1;
                   packageJson := {| main := None |} |};
     logs := [] |}.

End EntryPointSample.

(** * Part II: properties *)

(** ** The dispatch loop *)
Section DispatchProperties.
Import Errors Rpc SetupEventStream.
Context {Request Body W NonError : Type}.
Context `{!@Collaborators Request Body W NonError}.

Implicit Types (inMsg : @InMsg Request) (w : W).
Implicit Types (wr : @Writer Request Body NonError).
Implicit Types (m out : @OutMsg Body).
Implicit Types (effs : list (@Effect Request Body)).

Lemma elem_of_written effs m : m ∈ written effs ↔ StreamWrite m ∈ effs.
Proof.
  unfold written. rewrite list_elem_of_omap. split.
  - intros (e & He & Hm). destruct e; simplify_eq. done.
  - intros He. exists (StreamWrite m). done.
Qed.

Lemma written_app effs effs' : written (effs ++ effs') = written effs ++ written effs'.
Proof. unfold written. apply omap_app. Qed.

Lemma written_logs (logs : list RpcLog) :
  written (Request:=Request) (Body:=Body) (WorkerLog <$> logs) = [].
Proof. induction logs as [|l logs IH]; [done|]. exact IH. Qed.

Lemma written_logSystemError error :
  written (Request:=Request) (Body:=Body) (logSystemError error) = [].
Proof. unfold logSystemError. by destruct (isAzureFunctionsSystemError error). Qed.

(** The labels of the [switch] are told apart by [route]. *)
Lemma route_not_implemented k :
  k ∈ notImplementedKinds → route (Some k) = RouteNotImplemented.
Proof.
  unfold notImplementedKinds. rewrite !elem_of_cons, elem_of_nil.
  intros Hk; repeat (destruct Hk as [->|Hk]; [reflexivity|]). done.
Qed.

Lemma route_default (eventName : option string) :
  (∀ k, k ∈ enumeratedKinds → eventName ≠ Some k) → route eventName = RouteDefault.
Proof.
  intros Hout. destruct eventName as [n|]; [|done].
  unfold route.
  repeat match goal with
  | |- context [String.eqb n ?s] =>
      destruct (String.eqb_spec n s) as [->|_];
      [exfalso; apply (Hout s); [unfold enumeratedKinds; set_solver | done]|]
  end.
  done.
Qed.

Lemma route_default_inv (eventName : option string) k :
  route eventName = RouteDefault → k ∈ enumeratedKinds → eventName ≠ Some k.
Proof.
  intros Hr Hk ->. revert Hr. unfold enumeratedKinds in Hk.
  rewrite !elem_of_cons, elem_of_nil in Hk.
  repeat (destruct Hk as [->|Hk]; [discriminate|]). done.
Qed.

(** The kinds that have a handler, and the handler of each. *)
Lemma route_handler_kinds eventName name h :
  route eventName = RouteHandler name h →
  (name, h) ∈ [ ("functionEnvironmentReloadRequest", FunctionEnvironmentReloadHandler);
                ("functionLoadRequest", FunctionLoadHandler);
                ("invocationRequest", InvocationHandler);
                ("workerInitRequest", WorkerInitHandler);
                ("functionsMetadataRequest", FunctionsMetadataHandler) ].
Proof.
  destruct eventName as [n|]; [|done]. unfold route.
  repeat match goal with
  | |- context [String.eqb n ?s] => destruct (String.eqb_spec n s) as [->|_]
  end; intros; simplify_eq; set_solver.
Qed.

Lemma route_handler_kinds_inv name h :
  (name, h) ∈ [ ("functionEnvironmentReloadRequest", FunctionEnvironmentReloadHandler);
                ("functionLoadRequest", FunctionLoadHandler);
                ("invocationRequest", InvocationHandler);
                ("workerInitRequest", WorkerInitHandler);
                ("functionsMetadataRequest", FunctionsMetadataHandler) ] →
  route (Some name) = RouteHandler name h.
Proof.
  rewrite !elem_of_cons, elem_of_nil.
  intros Hk; repeat (destruct Hk as [[= -> ->]|Hk]; [reflexivity|]). done.
Qed.

(** The name [route] keeps is the content name itself. *)
Lemma route_handler_name eventName name h :
  route eventName = RouteHandler name h → eventName = Some name.
Proof.
  destruct eventName as [n|]; [|done]. unfold route.
  repeat match goal with
  | |- context [String.eqb n ?s] => destruct (String.eqb n s)
  end; intros; simplify_eq; done.
Qed.

(** The wrapped [write] of the worker's stream. *)
Lemma workerStream_write : write workerStream = checkWrite transportWrite.
Proof. reflexivity. Qed.

Lemma checkWrite_accepts wr out : verify out = None → checkWrite wr out = wr out.
Proof. intros Hv. unfold checkWrite. by rewrite Hv. Qed.

Lemma checkWrite_rejects wr out msgError :
  verify out = Some msgError →
  checkWrite wr out =
    ([SystemErrorLog "Worker malformed message" msgError],
     Some (ThrownError (AzFuncSystemError captureStack msgError))).
Proof. intros Hv. unfold checkWrite. by rewrite Hv. Qed.

(** Unfolds [handleMessage] down to the calls of its collaborators. *)
Ltac unfold_dispatch :=
  unfold handleMessage, tryBlock, catchBlock, finalWrite, nonNullProp, setField,
    setResult, successResult, failureResult; simpl.

(** C1: when a content kind has a handler and [handleEvent] throws, the
    envelope handed to [write] carries, under the handler's response name, the
    handler's default response with [result.status = Failure],
    [exception.message] the error's message and [exception.stackTrace] its
    stack; when [handleEvent] returns a payload, the envelope carries that
    payload with [result.status = Success]. *)
Theorem C1_handler_outcome_in_response wr inMsg w name h request logs w' :
  route (content inMsg) = RouteHandler name h →
  inFields inMsg !! name = Some request →
  (∀ err, handleEvent h request w = (logs, w', inl err) →
     let error := ensureErrorType errorOfValue err in
     let out :=
       {| requestId := inRequestId inMsg;
          outFields :=
            {[ responseName h :=
                 Payload {| body := body (getDefaultResponse h request);
                            result := Some {| status := Failure;
                                              exception := Some
                                                {| exceptionMessage := message error;
                                                   stackTrace := stack error |} |} |} ]} |} in
     handleMessage wr inMsg w =
       ((WorkerLog <$> logs) ++ logSystemError error ++ (wr out).1, w',
        outcomeOf (wr out).2))
  ∧ (∀ response, handleEvent h request w = (logs, w', inr response) →
     let out :=
       {| requestId := inRequestId inMsg;
          outFields :=
            {[ responseName h :=
                 Payload {| body := body response;
                            result := Some {| status := Success;
                                              exception := None |} |} ]} |} in
     handleMessage wr inMsg w =
       ((WorkerLog <$> logs) ++ (wr out).1, w', outcomeOf (wr out).2)).
Proof.
  intros Hroute Hreq. split.
  - intros err Hev error out. unfold_dispatch.
    rewrite Hroute, Hreq, Hev. simpl. rewrite insert_empty.
    fold error. fold out. by destruct (wr out) as [sent thrown].
  - intros response Hev out. unfold_dispatch.
    rewrite Hroute, Hreq, Hev. simpl. rewrite insert_empty.
    fold out. by destruct (wr out) as [sent thrown].
Qed.

(** C10: when a handler was resolved but the content property is null or
    undefined, [handleEvent] is not run and the envelope handed to [write]
    holds the echoed [requestId] and nothing else: no response property,
    hence no result status. *)
Theorem C10_missing_content_bare_envelope wr inMsg w name h :
  route (content inMsg) = RouteHandler name h →
  inFields inMsg !! name = None →
  let out := {| requestId := inRequestId inMsg; outFields := ∅ |} in
  handleMessage wr inMsg w =
    (logSystemError (ensureErrorType errorOfValue (nonNullFailure name)) ++ (wr out).1,
     w, outcomeOf (wr out).2)
  ∧ (verify out = None →
     written (handleMessage (write workerStream) inMsg w).1.1 = [out]).
Proof.
  intros Hroute Hreq out. split.
  - unfold_dispatch. rewrite Hroute, Hreq. simpl. fold out.
    by destruct (wr out) as [sent thrown].
  - intros Hv. unfold_dispatch. rewrite Hroute, Hreq. simpl. fold out.
    unfold checkWrite. rewrite Hv. simpl.
    by rewrite written_app, written_logSystemError.
Qed.

(** C9: a message of a kind that is listed but not implemented is dropped:
    no call of [write], no log entry, no error, and the promise resolves. *)
Theorem C9_not_implemented_discarded wr inMsg w k :
  content inMsg = Some k →
  k ∈ notImplementedKinds →
  handleMessage wr inMsg w = ([], w, Resolved).
Proof.
  intros Hc Hk. unfold_dispatch. by rewrite Hc, (route_not_implemented k Hk).
Qed.

(** C4: a message whose content kind is none of the labels of the [switch]
    produces one log entry, of category system and level error, and no call
    of [write]; the promise resolves, the worker state is unchanged and the
    messages that follow are served as they would have been. *)
Theorem C4_unknown_kind_logged_not_answered wr inMsg w rest :
  (∀ k, k ∈ enumeratedKinds → content inMsg ≠ Some k) →
  let entry :=
    WorkerLog {| logMessage := noHandlerMessage (content inMsg);
                 level := LevelError;
                 logCategory := CategorySystem |} in
  handleMessage wr inMsg w = ([entry], w, Resolved)
  ∧ severity entry = Some LevelError
  ∧ written (handleMessage wr inMsg w).1.1 = []
  ∧ serve wr (inMsg :: rest) w =
      (entry :: (serve wr rest w).1.1, (serve wr rest w).1.2,
       Resolved :: (serve wr rest w).2).
Proof.
  intros Hout entry.
  assert (Hm : handleMessage wr inMsg w = ([entry], w, Resolved)).
  { unfold_dispatch. by rewrite (route_default _ Hout). }
  split_and!; [done | done | by rewrite Hm |].
  cbn [serve]. rewrite Hm.
  by destruct (serve wr rest w) as [[effs w''] outcomes].
Qed.

Lemma StreamWrite_not_log (logs : list RpcLog) m :
  StreamWrite (Request:=Request) m ∉ (WorkerLog <$> logs).
Proof. rewrite list_elem_of_fmap. intros (l & Hl & _). discriminate. Qed.

Lemma StreamWrite_not_logSystemError error m :
  StreamWrite (Request:=Request) m ∉ logSystemError error.
Proof.
  unfold logSystemError. destruct (isAzureFunctionsSystemError error).
  - rewrite list_elem_of_singleton. discriminate.
  - apply not_elem_of_nil.
Qed.

(** Every envelope that reaches the transport while a message is handled
    comes from a call of [write] on an envelope that carries the request id
    of that message. *)
Lemma handleMessage_StreamWrite wr inMsg w m :
  StreamWrite m ∈ (handleMessage wr inMsg w).1.1 →
  ∃ out, requestId out = inRequestId inMsg ∧ StreamWrite m ∈ (wr out).1.
Proof.
  unfold handleMessage, tryBlock, catchBlock, finalWrite, nonNullProp.
  intros Hin.
  repeat (case_match; simplify_eq/=);
  repeat match goal with
  | Hf : _ ∈ _ ++ _ |- _ => rewrite elem_of_app in Hf
  | Hf : _ ∈ _ :: _ |- _ => rewrite elem_of_cons in Hf
  | Hor : _ ∨ _ |- _ => destruct Hor as [Hor|Hor]
  | Hf : _ ∈ [] |- _ => by apply elem_of_nil in Hf
  | Hf : StreamWrite _ ∈ (WorkerLog <$> _) |- _ => by apply StreamWrite_not_log in Hf
  | Hf : StreamWrite _ ∈ logSystemError _ |- _ =>
      by apply StreamWrite_not_logSystemError in Hf
  | Hf : StreamWrite _ = TerminateCall _ |- _ => discriminate Hf
  | Hf : StreamWrite _ = WorkerLog _ |- _ => discriminate Hf
  | Hw : wr ?out = (?sent, _), Hf : StreamWrite m ∈ ?sent |- _ =>
      exists out; split; [reflexivity | by rewrite Hw]
  end.
Qed.

Lemma workerStream_StreamWrite out m :
  StreamWrite m ∈ (write workerStream out).1 → m = out ∧ verify m = None.
Proof.
  rewrite workerStream_write. unfold checkWrite, transportWrite.
  destruct (verify out) eqn:Hv; simpl; rewrite list_elem_of_singleton.
  - discriminate.
  - intros [= ->]. done.
Qed.

(** C2: every envelope the worker sends while it handles a message carries
    the request id of that message. *)
Theorem C2_requestId_echoed inMsg w m :
  m ∈ written (handleMessage (write workerStream) inMsg w).1.1 →
  requestId m = inRequestId inMsg.
Proof.
  rewrite elem_of_written. intros Hin.
  apply handleMessage_StreamWrite in Hin as (out & Hid & Hout).
  apply workerStream_StreamWrite in Hout as [-> _]. exact Hid.
Qed.

(** C5: a [workerStatusRequest] makes the dispatcher call [write] at once on
    an envelope whose [workerStatusResponse] is the empty object, which has no
    [result], and no handler is involved; a [workerTerminate] never makes it
    call [write], and makes it call [terminateWorker] on the message's
    [workerTerminate] property (were that property null or undefined,
    [nonNullProp] would throw before the call). *)
Theorem C5_status_ack_and_terminate wr inMsg w :
  (content inMsg = Some "workerStatusRequest" →
     let ack := {| requestId := inRequestId inMsg;
                   outFields := {[ "workerStatusResponse" := EmptyObject ]} |} in
     handleMessage wr inMsg w =
       ((wr ack).1 ++
        match (wr ack).2 with
        | Some err => logSystemError (ensureErrorType errorOfValue err)
        | None => []
        end, w, Resolved)
     ∧ (verify ack = None →
        handleMessage (write workerStream) inMsg w = ([StreamWrite ack], w, Resolved)))
  ∧ (content inMsg = Some "workerTerminate" →
     written (handleMessage wr inMsg w).1.1 = []
     ∧ match inFields inMsg !! "workerTerminate" with
       | Some msg =>
           handleMessage wr inMsg w =
             (TerminateCall msg :: (WorkerLog <$> (terminateWorker msg w).1.1) ++
              match (terminateWorker msg w).2 with
              | Some err => logSystemError (ensureErrorType errorOfValue err)
              | None => []
              end, (terminateWorker msg w).1.2, Resolved)
       | None =>
           handleMessage wr inMsg w =
             (logSystemError (ensureErrorType errorOfValue
                                (nonNullFailure "workerTerminate")), w, Resolved)
       end).
Proof.
  split.
  - intros Hc ack.
    assert (Hgen : ∀ wr', handleMessage wr' inMsg w =
      ((wr' ack).1 ++
       match (wr' ack).2 with
       | Some err => logSystemError (ensureErrorType errorOfValue err)
       | None => []
       end, w, Resolved)).
    { intros wr'. unfold_dispatch. rewrite Hc. simpl. rewrite insert_empty. fold ack.
      destruct (wr' ack) as [sent [err|]]; simpl; by rewrite ?app_nil_r. }
    split; [apply Hgen|].
    intros Hv. rewrite Hgen, workerStream_write, checkWrite_accepts by done. done.
  - intros Hc.
    destruct (inFields inMsg !! "workerTerminate") as [msg|] eqn:Hmsg.
    + assert (Hrun : handleMessage wr inMsg w =
        (TerminateCall msg :: (WorkerLog <$> (terminateWorker msg w).1.1) ++
         match (terminateWorker msg w).2 with
         | Some err => logSystemError (ensureErrorType errorOfValue err)
         | None => []
         end, (terminateWorker msg w).1.2, Resolved)).
      { unfold_dispatch. rewrite Hc. simpl. rewrite Hmsg.
        destruct (terminateWorker msg w) as [[logs w'] [err|]]; simpl;
          by rewrite ?app_nil_r. }
      split; [|exact Hrun]. rewrite Hrun. simpl.
      rewrite written_app, written_logs. simpl.
      destruct (terminateWorker msg w).2; [apply written_logSystemError | done].
    + assert (Hrun : handleMessage wr inMsg w =
        (logSystemError (ensureErrorType errorOfValue
                           (nonNullFailure "workerTerminate")), w, Resolved)).
      { unfold_dispatch. rewrite Hc. simpl. rewrite Hmsg. simpl.
        by rewrite app_nil_r. }
      split; [|exact Hrun]. rewrite Hrun. apply written_logSystemError.
Qed.

(** C8: [setupEventStream] replaces the stream's [write] by [checkWrite],
    which verifies the message first.  When the verification fails a system
    error is logged at error severity, an error is thrown and the former
    [write] is not called, whatever it is; so every envelope that reaches the
    transport, in particular while a message is handled, is well formed. *)
Theorem C8_malformed_never_sent (eventStream : EventStream) wr out :
  write (setupEventStream eventStream) = checkWrite (write eventStream)
  ∧ (∀ msgError, verify out = Some msgError →
       checkWrite wr out =
         ([SystemErrorLog "Worker malformed message" msgError],
          Some (ThrownError (AzFuncSystemError captureStack msgError)))
       ∧ severity (SystemErrorLog (Request:=Request) (Body:=Body)
                     "Worker malformed message" msgError) = Some LevelError
       ∧ written (write workerStream out).1 = [])
  ∧ (verify out = None → checkWrite wr out = wr out)
  ∧ (∀ m, m ∈ written (write workerStream out).1 → m = out ∧ verify m = None)
  ∧ (∀ inMsg w m, m ∈ written (handleMessage (write workerStream) inMsg w).1.1 →
       verify m = None).
Proof.
  split_and!.
  - reflexivity.
  - intros msgError Hv. split_and!.
    + by apply checkWrite_rejects.
    + reflexivity.
    + rewrite workerStream_write, (checkWrite_rejects _ _ _ Hv). reflexivity.
  - apply checkWrite_accepts.
  - intros m Hm. apply elem_of_written in Hm. by apply workerStream_StreamWrite.
  - intros inMsg w m Hm. apply elem_of_written in Hm.
    apply handleMessage_StreamWrite in Hm as (out' & _ & Hout).
    by apply workerStream_StreamWrite in Hout as [_ ?].
Qed.

End DispatchProperties.

(** ** The function registry *)
Section RegistryProperties.
Import Errors Rpc RegisterFunction.
Context {Props Other Callback : Type}.
Context `{!@Collaborators Props}.

Implicit Types (p : @Process Props Other Callback).
Implicit Types (ref : nat) (cb : Callback).
Implicit Types (calls : list (nat * Callback)).
Implicit Types (obs : nat → @FunctionMetadata Props Other).
Implicit Types (rf : @RegisteredFunction Callback).

Lemma registerFunction_closed p ref cb :
  hasIndexedFunctions (channel p) = true →
  registerFunction p ref cb =
    inl (InternalException captureStack
           "A function can only be registered during app startup.").
Proof. intros Hidx. unfold registerFunction. by rewrite Hidx. Qed.

Lemma registerFunction_open p ref cb :
  hasIndexedFunctions (channel p) = false →
  registerFunction p ref cb =
    inr ({| dispose := disposeFunction (uuid (uuidCalls p)) |},
         {| channel :=
              {| hasIndexedFunctions := false;
                 functions := <[uuid (uuidCalls p) :=
                                  {| metadata := ref; callback := cb |}]>
                                (functions (channel p)) |};
            uuidCalls := S (uuidCalls p);
            objects := <[ref := assign (uuid (uuidCalls p)) (objects p ref)]>
                         (objects p) |}).
Proof. intros Hidx. unfold registerFunction. by rewrite Hidx. Qed.

Lemma convertToRawBinding_spec (n : string) (b : @RpcBindingInfo Props) :
  convertToRawBinding n b =
    JSON_stringify {| rawName := n;
                      rawDirection := directionName <$> direction b;
                      rawProps := bindingProps b |}.
Proof. unfold convertToRawBinding. by destruct (direction b) as [[]|]. Qed.

(** An identifier about to be drawn is not yet a key of the registry. *)
Lemma next_uuid_fresh p :
  Inj (=) (=) uuid → drawnOnly p →
  functions (channel p) !! uuid (uuidCalls p) = None.
Proof.
  intros Hinj Hinv. apply eq_None_not_Some. intros Hsome.
  destruct (Hinv _ Hsome) as (i & Hlt & Heq). apply Hinj in Heq. lia.
Qed.

Lemma drawnOnly_insert p rf obs :
  drawnOnly p →
  drawnOnly {| channel :=
                 {| hasIndexedFunctions := false;
                    functions := <[uuid (uuidCalls p) := rf]> (functions (channel p)) |};
               uuidCalls := S (uuidCalls p);
               objects := obs |}.
Proof.
  intros Hinv id. simpl. rewrite lookup_insert. case_decide as Hid.
  - intros _. exists (uuidCalls p). split; [lia | done].
  - intros Hsome. destruct (Hinv _ Hsome) as (i & Hlt & Heq).
    exists i. split; [lia | done].
Qed.

Lemma drawnOnly_initial (indexed : bool) obs :
  drawnOnly (Other:=Other) (Callback:=Callback)
    {| channel := {| hasIndexedFunctions := indexed; functions := ∅ |};
       uuidCalls := 0;
       objects := obs |}.
Proof. intros id [rf Hrf]. simpl in Hrf. by rewrite lookup_empty in Hrf. Qed.

(** Before indexing, a token removes the entry it was issued for and nothing
    else. *)
Lemma dispose_open p0 ref cb token p1 p :
  registerFunction p0 ref cb = inr (token, p1) →
  hasIndexedFunctions (channel p) = false →
  ∃ p', dispose token p = inr p'
        ∧ functions (channel p') = delete (uuid (uuidCalls p0)) (functions (channel p))
        ∧ hasIndexedFunctions (channel p') = false
        ∧ uuidCalls p' = uuidCalls p
        ∧ (drawnOnly p → drawnOnly p').
Proof.
  intros Hreg Hidx. unfold registerFunction in Hreg.
  destruct (hasIndexedFunctions (channel p0)); [discriminate|].
  injection Hreg as <- _. simpl. unfold disposeFunction. rewrite Hidx.
  eexists. split; [reflexivity|]. simpl. split_and!; try done.
  intros Hinv id. simpl. rewrite lookup_delete. case_decide; [by intros [? ?]|].
  apply Hinv.
Qed.

(** A run splits at any point. *)
Lemma registerAll_app calls calls' p :
  registerAll (calls ++ calls') p =
    match registerAll calls p with
    | inl err => inl err
    | inr (tokens, p1) =>
        match registerAll calls' p1 with
        | inl err => inl err
        | inr (tokens', p2) => inr (tokens ++ tokens', p2)
        end
    end.
Proof.
  revert p. induction calls as [|[ref cb] calls IH]; intros p; simpl.
  - by destruct (registerAll calls' p) as [err|[tokens' p2]].
  - destruct (registerFunction p ref cb) as [err|[token p0]]; [done|].
    rewrite IH. destruct (registerAll calls p0) as [err|[tokens p1]]; [done|].
    by destruct (registerAll calls' p1) as [err|[tokens' p2]].
Qed.

(** A run of registrations before indexing: all of them succeed, each one
    stores its entry under the next identifier drawn, and the registry keeps
    what it held. *)
Lemma registerAll_open calls :
  Inj (=) (=) uuid →
  ∀ p, hasIndexedFunctions (channel p) = false → drawnOnly p →
  ∃ tokens p',
    registerAll calls p = inr (tokens, p')
    ∧ length tokens = length calls
    ∧ hasIndexedFunctions (channel p') = false
    ∧ uuidCalls p' = uuidCalls p + length calls
    ∧ drawnOnly p'
    ∧ functions (channel p) ⊆ functions (channel p')
    ∧ ∀ i ref cb, calls !! i = Some (ref, cb) →
        functions (channel p') !! uuid (uuidCalls p + i)
        = Some {| metadata := ref; callback := cb |}.
Proof.
  intros Hinj. induction calls as [|[ref cb] rest IH]; intros p Hidx Hinv.
  - exists [], p. split_and!; try done.
  - cbn [registerAll]. rewrite (registerFunction_open p ref cb Hidx).
    set (rf := {| metadata := ref; callback := cb |}).
    set (p1 := {| channel := _; uuidCalls := _; objects := _ |}).
    destruct (IH p1 eq_refl (drawnOnly_insert p rf _ Hinv))
      as (tokens & p' & -> & Hlen & Hidx' & Hcalls & Hinv' & Hsub & Hall).
    exists ({| dispose := disposeFunction (uuid (uuidCalls p)) |} :: tokens), p'.
    assert (Hgrow : functions (channel p) ⊆ functions (channel p')).
    { etrans; [|exact Hsub]. simpl. apply insert_subseteq.
      by apply next_uuid_fresh. }
    split_and!; try done.
    + simpl. by rewrite Hlen.
    + rewrite Hcalls. simpl. lia.
    + intros [|i] ref' cb' Hi; simpl in Hi.
      * simplify_eq. rewrite Nat.add_0_r.
        eapply lookup_weaken; [|exact Hsub]. simpl. apply lookup_insert_eq.
      * specialize (Hall i ref' cb' Hi). simpl in Hall.
        by replace (uuidCalls p + S i) with (S (uuidCalls p + i)) by lia.
Qed.

(** Right after the [i]-th registration of a run the caller's object carries
    the identifier drawn for it, and the registry holds the object under
    it. *)
Lemma registerAll_prefix calls i ref cb :
  Inj (=) (=) uuid →
  ∀ p, hasIndexedFunctions (channel p) = false → drawnOnly p →
  calls !! i = Some (ref, cb) →
  ∃ tokens p_i,
    registerAll (take (S i) calls) p = inr (tokens, p_i)
    ∧ functionId (objects p_i ref) = Some (uuid (uuidCalls p + i))
    ∧ functions (channel p_i) !! uuid (uuidCalls p + i)
      = Some {| metadata := ref; callback := cb |}.
Proof.
  intros Hinj p Hidx Hinv Hi.
  rewrite (take_S_r _ _ _ Hi), registerAll_app.
  destruct (registerAll_open (take i calls) Hinj p Hidx Hinv)
    as (tokens & p0 & -> & _ & Hidx0 & Hcalls & _).
  rewrite length_take_le in Hcalls by (apply lookup_lt_Some in Hi; lia).
  cbn [registerAll]. rewrite (registerFunction_open p0 ref cb Hidx0).
  eexists _, _. split; [reflexivity|]. simpl. rewrite Hcalls. split.
  - by rewrite fn_lookup_insert.
  - apply lookup_insert_eq.
Qed.

(** C3: once the worker has indexed its functions, [registerFunction] throws
    its startup-only error, and [dispose] on a token that an earlier
    registration returned throws the startup-only error of disposal.  Before
    that, every registration of a run succeeds; as long as [uuid()] does not
    repeat, the identifier a call assigns to its object is new to the
    registry, is not one that an earlier call of the run assigned, and is the
    key under which the registry holds that call's object and callback, then
    and at the end of the run; the registry keeps what it held.  No order is
    stated among the identifiers. *)
Theorem C3_registration_window :
  (∀ p ref cb, hasIndexedFunctions (channel p) = true →
     registerFunction p ref cb =
       inl (InternalException captureStack
              "A function can only be registered during app startup.")
     ∧ ∀ p0 ref0 cb0 token p1,
         registerFunction p0 ref0 cb0 = inr (token, p1) →
         dispose token p =
           inl (InternalException captureStack
                  "A function can only be disposed during app startup."))
  ∧ (Inj (=) (=) uuid →
     ∀ calls p, hasIndexedFunctions (channel p) = false → drawnOnly p →
     ∃ tokens p',
       registerAll calls p = inr (tokens, p')
       ∧ length tokens = length calls
       ∧ functions (channel p) ⊆ functions (channel p')
       ∧ ∀ i ref cb, calls !! i = Some (ref, cb) →
           ∃ tokens_i p_i id,
             registerAll (take (S i) calls) p = inr (tokens_i, p_i)
             ∧ functionId (objects p_i ref) = Some id
             ∧ functions (channel p) !! id = None
             ∧ functions (channel p_i) !! id = Some {| metadata := ref; callback := cb |}
             ∧ functions (channel p') !! id = Some {| metadata := ref; callback := cb |}
             ∧ ∀ j ref' cb' tokens_j p_j id',
                 j < i → calls !! j = Some (ref', cb') →
                 registerAll (take (S j) calls) p = inr (tokens_j, p_j) →
                 functionId (objects p_j ref') = Some id' →
                 id' ≠ id).
Proof.
  split.
  - intros p ref cb Hidx. split; [by apply registerFunction_closed|].
    intros p0 ref0 cb0 token p1 Hreg. unfold registerFunction in Hreg.
    destruct (hasIndexedFunctions (channel p0)); [discriminate|].
    injection Hreg as <- _. simpl. unfold disposeFunction. by rewrite Hidx.
  - intros Hinj calls p Hidx Hinv.
    destruct (registerAll_open calls Hinj p Hidx Hinv)
      as (tokens & p' & Hrun & Hlen & _ & _ & _ & Hsub & Hall).
    exists tokens, p'. split_and!; try done.
    intros i ref cb Hi.
    destruct (registerAll_prefix calls i ref cb Hinj p Hidx Hinv Hi)
      as (tokens_i & p_i & Hrun_i & Hid & Hkey).
    exists tokens_i, p_i, (uuid (uuidCalls p + i)). split_and!; try done.
    + apply eq_None_not_Some. intros Hsome.
      destruct (Hinv _ Hsome) as (k & Hlt & Heq). apply Hinj in Heq. lia.
    + by apply Hall.
    + intros j ref' cb' tokens_j p_j id' Hlt Hj Hrun_j Hid'.
      destruct (registerAll_prefix calls j ref' cb' Hinj p Hidx Hinv Hj)
        as (tokens_j' & p_j' & Hrun_j' & Hid_j & _).
      rewrite Hrun_j in Hrun_j'. injection Hrun_j' as <- <-.
      rewrite Hid' in Hid_j. injection Hid_j as ->.
      intros Heq. apply Hinj in Heq. lia.
Qed.

(** C7: a registration that succeeds stores, under the identifier it draws,
    the callback together with the caller's metadata object, which by then
    has [functionId] set to that identifier, [scriptFile] set to [n/a] and
    [rawBindings] set to the list, for each named binding in order, of the
    serialised binding with its name attached and its direction replaced by
    the lowercase name [in], [out] or [inout]; the name, the bindings and the
    other properties of the object are as they were, and so is every other
    object; the identifier was not in use and is not the next one drawn. *)
Theorem C7_registered_metadata p ref cb :
  hasIndexedFunctions (channel p) = false →
  let id := uuid (uuidCalls p) in
  let md := objects p ref in
  ∃ token p',
    registerFunction p ref cb = inr (token, p')
    ∧ functions (channel p') =
        <[id := {| metadata := ref; callback := cb |}]> (functions (channel p))
    ∧ functions (channel p') !! id = Some {| metadata := ref; callback := cb |}
    ∧ functionId (objects p' ref) = Some id
    ∧ scriptFile (objects p' ref) = Some "n/a"
    ∧ (∃ raws, rawBindings (objects p' ref) = Some raws
         ∧ length raws = length (bindings md)
         ∧ ∀ i n b, bindings md !! i = Some (n, b) →
             raws !! i =
               Some (JSON_stringify {| rawName := n;
                                       rawDirection := directionName <$> direction b;
                                       rawProps := bindingProps b |}))
    ∧ name (objects p' ref) = name md
    ∧ bindings (objects p' ref) = bindings md
    ∧ otherMetadata (objects p' ref) = otherMetadata md
    ∧ (∀ ref', ref' ≠ ref → objects p' ref' = objects p ref')
    ∧ (∀ d, directionName d ∈ ["in"; "out"; "inout"])
    ∧ (Inj (=) (=) uuid → drawnOnly p →
         functions (channel p) !! id = None
         ∧ uuid (uuidCalls p') ≠ id
         ∧ drawnOnly p').
Proof.
  intros Hidx id md.
  eexists _, _. split; [by apply registerFunction_open|]. simpl.
  rewrite fn_lookup_insert. simpl.
  split_and!; try done.
  - apply lookup_insert_eq.
  - exists ((λ entry, convertToRawBinding entry.1 entry.2) <$> bindings md).
    split; [reflexivity|]. split; [by rewrite length_fmap|].
    intros i n b Hi. rewrite list_lookup_fmap, Hi. simpl.
    by rewrite convertToRawBinding_spec.
  - intros ref' Hne. by rewrite fn_lookup_insert_ne.
  - intros []; simpl; set_solver.
  - intros Hinj Hinv. split_and!.
    + by apply next_uuid_fresh.
    + intros Heq. apply Hinj in Heq. lia.
    + by apply drawnOnly_insert.
Qed.

End RegistryProperties.

(** ** The app-start context *)
Section StartAppProperties.
Import Errors Rpc StartApp.
Context {NonError : Type}.
Context `{!@Collaborators NonError}.

Implicit Types (st : Store) (v : Value).

(** What a hook writes into the object it reads from [hookData] is what the
    channel's [appLevelOnlyHookData] holds afterwards: the accessor hands out
    the object itself. *)
Lemma hookData_contents_shared functionAppDirectory st key v :
  is_Some (heap st !! appLevelOnlyHookData (channel st)) →
  let context := appStartContext functionAppDirectory in
  let st' := (assignMember (NonError:=NonError)
                (readProperty context "hookData" st) key v st).1 in
  channel st' = channel st
  ∧ readMember (readProperty context "hookData" st') key st' = v
  ∧ readMember (VObject (appLevelOnlyHookData (channel st'))) key st' = v.
Proof.
  intros [o Ho] context st'.
  assert (Hread : ∀ s, readProperty context "hookData" s
                       = VObject (appLevelOnlyHookData (channel s))).
  { intros s. unfold readProperty, context, appStartContext.
    by rewrite lookup_insert_eq. }
  subst st'. rewrite Hread. simpl. split; [done|].
  rewrite Hread. simpl. rewrite lookup_alter_eq, Ho. simpl.
  by rewrite lookup_insert_eq.
Qed.

(** C6: the context [startApp] passes to the [appStart] hooks reads
    [hookData] as the channel's [appLevelOnlyHookData] and [appHookData] as
    the channel's [appHookData]; an assignment to either property throws the
    read-only error that names it and changes nothing. *)
Theorem C6_hook_data_accessors_read_only functionAppDirectory st v :
  let context := appStartContext functionAppDirectory in
  startApp functionAppDirectory =
    bind (updatePackageJson functionAppDirectory) (λ _,
      bind (loadEntryPointFile functionAppDirectory) (λ _,
        executeHooks "appStart" context))
  ∧ readProperty context "hookData" st = VObject (appLevelOnlyHookData (channel st))
  ∧ readProperty context "appHookData" st = VObject (appHookData (channel st))
  ∧ assignProperty context "hookData" v st =
      (st, inl (ThrownError (ReadOnlyError captureStack "hookData")))
  ∧ assignProperty context "appHookData" v st =
      (st, inl (ThrownError (ReadOnlyError captureStack "appHookData")))
  ∧ message (ReadOnlyError captureStack "hookData") =
      "Cannot assign to read only property 'hookData'"
  ∧ message (ReadOnlyError captureStack "appHookData") =
      "Cannot assign to read only property 'appHookData'".
Proof.
  intros context. unfold context, appStartContext, readProperty, assignProperty.
  split; [reflexivity|].
  rewrite lookup_insert_eq, lookup_insert_ne, lookup_insert_eq by done.
  done.
Qed.

End StartAppProperties.

(** ** The properties on the sample worker *)
Section DispatchRuns.
Import Errors Rpc SetupEventStream Sample.

(** The failure envelope and the success envelope of the sample runs. *)
Lemma sample_run_throws :
  handleMessage (write workerStream) (sampleIn "7" "invocationRequest" (Some "boom")) 0 =
    ([StreamWrite
        {| requestId := "7";
           outFields :=
             {[ "invocationResponse" :=
                  Payload {| body := "default";
                             result := Some {| status := Failure;
                                               exception := Some
                                                 {| exceptionMessage := "boom";
                                                    stackTrace := Some "Error: boom" |} |} |} ]} |}],
     0, Resolved).
Proof. reflexivity. Qed.

Lemma C1_handler_outcome_in_response_witness :
  handleMessage (write workerStream) (sampleIn "7" "invocationRequest" (Some "boom")) 0 =
    ([StreamWrite
        {| requestId := "7";
           outFields :=
             {[ "invocationResponse" :=
                  Payload {| body := "default";
                             result := Some {| status := Failure;
                                               exception := Some
                                                 {| exceptionMessage := "boom";
                                                    stackTrace := Some "Error: boom" |} |} |} ]} |}],
     0, Resolved)
  ∧ handleMessage (write workerStream) (sampleIn "8" "invocationRequest" (Some "hello")) 0 =
    ([StreamWrite
        {| requestId := "8";
           outFields :=
             {[ "invocationResponse" :=
                  Payload {| body := "hello";
                             result := Some {| status := Success;
                                               exception := None |} |} ]} |}],
     1, Resolved).
Proof.
  split.
  - etransitivity.
    + apply (proj1 (C1_handler_outcome_in_response (write workerStream)
               (sampleIn "7" "invocationRequest" (Some "boom")) 0
               "invocationRequest" InvocationHandler "boom" [] 0
               ltac:(vm_compute; reflexivity) ltac:(vm_compute; reflexivity))
             (ThrownError (Error sampleStack "boom"))).
      vm_compute; reflexivity.
    + vm_compute; reflexivity.
  - etransitivity.
    + apply (proj2 (C1_handler_outcome_in_response (write workerStream)
               (sampleIn "8" "invocationRequest" (Some "hello")) 0
               "invocationRequest" InvocationHandler "hello" [] 1
               ltac:(vm_compute; reflexivity) ltac:(vm_compute; reflexivity))
             {| body := "hello"; result := None |}).
      vm_compute; reflexivity.
    + vm_compute; reflexivity.
Defined.

Lemma C2_requestId_echoed_witness :
  let m := {| requestId := "7";
              outFields :=
                {[ "invocationResponse" :=
                     Payload {| body := "default";
                                result := Some {| status := Failure;
                                                  exception := Some
                                                    {| exceptionMessage := "boom";
                                                       stackTrace := Some "Error: boom" |} |} |} ]} |} in
  requestId m = inRequestId (sampleIn "7" "invocationRequest" (Some "boom")).
Proof.
  intros m.
  apply (C2_requestId_echoed (sampleIn "7" "invocationRequest" (Some "boom")) 0 m).
  rewrite sample_run_throws. simpl. rewrite list_elem_of_singleton. reflexivity.
Defined.

Lemma C4_unknown_kind_logged_not_answered_witness :
  handleMessage (write workerStream) (sampleIn "9" "someFutureRequest" (Some "x")) 0 =
    ([WorkerLog {| logMessage := "Worker had no handler for message 'someFutureRequest'";
                   level := LevelError;
                   logCategory := CategorySystem |}], 0, Resolved).
Proof.
  apply (C4_unknown_kind_logged_not_answered (write workerStream)
           (sampleIn "9" "someFutureRequest" (Some "x")) 0 []).
  intros k. apply route_default_inv. vm_compute; reflexivity.
Defined.

Lemma C5_status_ack_and_terminate_witness :
  handleMessage (write workerStream) (sampleIn "3" "workerStatusRequest" (Some "probe")) 5 =
    ([StreamWrite {| requestId := "3";
                     outFields := {[ "workerStatusResponse" := EmptyObject ]} |}],
     5, Resolved)
  ∧ handleMessage (write workerStream) (sampleIn "4" "workerTerminate" (Some "bye")) 5 =
    ([TerminateCall "bye"], 5, Resolved).
Proof.
  split.
  - apply (proj1 (C5_status_ack_and_terminate (write workerStream)
             (sampleIn "3" "workerStatusRequest" (Some "probe")) 5)).
    + reflexivity.
    + vm_compute; reflexivity.
  - etransitivity.
    + exact (proj2 (proj2 (C5_status_ack_and_terminate (write workerStream)
               (sampleIn "4" "workerTerminate" (Some "bye")) 5) eq_refl)).
    + vm_compute; reflexivity.
Defined.

Lemma C8_malformed_never_sent_witness :
  let out := {| requestId := "bad"; outFields := ∅ |} in
  checkWrite transportWrite out =
    ([SystemErrorLog "Worker malformed message" "requestId: string expected"],
     Some (ThrownError (AzFuncSystemError captureStack "requestId: string expected")))
  ∧ written (write workerStream out).1 = [].
Proof.
  intros out.
  destruct (C8_malformed_never_sent workerStream transportWrite out)
    as (_ & Hbad & _).
  destruct (Hbad "requestId: string expected") as (Hthrown & _ & Hnone).
  - vm_compute; reflexivity.
  - split; [exact Hthrown | exact Hnone].
Defined.

(** A request whose reply is malformed: the error is logged, nothing is
    sent and the promise rejects. *)
Example sample_run_malformed_reply :
  handleMessage (write workerStream) (sampleIn "bad" "invocationRequest" (Some "hello")) 0 =
    ([SystemErrorLog "Worker malformed message" "requestId: string expected"], 1,
     Rejected (ThrownError (AzFuncSystemError captureStack "requestId: string expected"))).
Proof. vm_compute; reflexivity. Qed.

Lemma C9_not_implemented_discarded_witness :
  handleMessage (write workerStream) (sampleIn "5" "workerHeartbeat" (Some "x")) 0 =
    ([], 0, Resolved).
Proof.
  apply (C9_not_implemented_discarded (write workerStream)
           (sampleIn "5" "workerHeartbeat" (Some "x")) 0 "workerHeartbeat").
  - reflexivity.
  - unfold notImplementedKinds. rewrite !elem_of_cons. do 5 right. left. reflexivity.
Defined.

Lemma C10_missing_content_bare_envelope_witness :
  handleMessage (write workerStream) (sampleIn "6" "invocationRequest" None) 0 =
    ([WorkerLog {| logMessage :=
                     "Internal error: Expected value to be neither null nor undefined: invocationRequest";
                   level := LevelError;
                   logCategory := CategorySystem |};
      StreamWrite {| requestId := "6"; outFields := ∅ |}], 0, Resolved).
Proof.
  etransitivity.
  - apply (proj1 (C10_missing_content_bare_envelope (write workerStream)
             (sampleIn "6" "invocationRequest" None) 0
             "invocationRequest" InvocationHandler
             ltac:(vm_compute; reflexivity) ltac:(vm_compute; reflexivity))).
  - vm_compute; reflexivity.
Defined.

End DispatchRuns.

Section RegistryRuns.
Import Errors Rpc RegisterFunction Sample.

Lemma startup_drawnOnly : drawnOnly startup.
Proof. apply drawnOnly_initial. Qed.

Lemma sample_first_uuid : uuid (uuidCalls startup) = "0".
Proof. vm_compute; reflexivity. Qed.

Lemma C3_registration_window_witness :
  (registerFunction indexed 1 10 =
     inl (InternalException captureStack
            "A function can only be registered during app startup.")
   ∧ ∃ token p1,
       registerFunction startup 1 10 = inr (token, p1)
       ∧ dispose token indexed =
           inl (InternalException captureStack
                  "A function can only be disposed during app startup."))
  ∧ ∃ tokens p',
      registerAll [(1, 10); (2, 20)] startup = inr (tokens, p')
      ∧ length tokens = 2
      ∧ ∃ tokens_i p_i id,
          registerAll (take 2 [(1, 10); (2, 20)]) startup = inr (tokens_i, p_i)
          ∧ functionId (objects p_i 2) = Some id
          ∧ functions (channel startup) !! id = None
          ∧ functions (channel p_i) !! id = Some {| metadata := 2; callback := 20 |}
          ∧ functions (channel p') !! id = Some {| metadata := 2; callback := 20 |}
          ∧ ∀ j ref' cb' tokens_j p_j id',
              j < 1 → [(1, 10); (2, 20)] !! j = Some (ref', cb') →
              registerAll (take (S j) [(1, 10); (2, 20)]) startup = inr (tokens_j, p_j) →
              functionId (objects p_j ref') = Some id' →
              id' ≠ id.
Proof.
  destruct (C3_registration_window (Other:=unit) (Callback:=nat)) as [Hclosed Hopen].
  split.
  - destruct (Hclosed indexed 1 10 eq_refl) as [Hreg Hdis].
    split; [exact Hreg|].
    destruct (registerFunction startup 1 10) as [e|[token p1]] eqn:Hrun;
      [vm_compute in Hrun; discriminate|].
    exists token, p1. split; [reflexivity|].
    exact (Hdis startup 1 10 token p1 Hrun).
  - destruct (Hopen _ [(1, 10); (2, 20)] startup eq_refl startup_drawnOnly)
      as (tokens & p' & Hrun & Hlen & _ & Hall).
    exists tokens, p'. split; [exact Hrun|]. split; [exact Hlen|].
    exact (Hall 1 2 20 eq_refl).
Defined.

(** With [uuid()] returning [firstId] and then [secondId], the first
    registration assigns [firstId] and the second one [secondId], which comes
    before it in the order of strings; with the two swapped the same calls
    assign them the other way round. *)
Lemma C3_counterexample :
  (∃ tokens p1 tokens' p2,
     @registerAll string unit nat (drawing firstId secondId) [(1, 10)] startup
       = inr (tokens, p1)
     ∧ functionId (objects p1 1) = Some firstId
     ∧ @registerAll string unit nat (drawing firstId secondId) [(1, 10); (2, 20)] startup
       = inr (tokens', p2)
     ∧ functionId (objects p2 2) = Some secondId)
  ∧ String.compare firstId secondId = Gt
  ∧ ¬ increasing [firstId; secondId]
  ∧ (∃ tokens p1 tokens' p2,
       @registerAll string unit nat (drawing secondId firstId) [(1, 10)] startup
         = inr (tokens, p1)
       ∧ functionId (objects p1 1) = Some secondId
       ∧ @registerAll string unit nat (drawing secondId firstId) [(1, 10); (2, 20)] startup
         = inr (tokens', p2)
       ∧ functionId (objects p2 2) = Some firstId).
Proof.
  split_and!.
  - eexists _, _, _, _. split; [vm_compute; reflexivity|].
    split; [vm_compute; reflexivity|].
    split; [vm_compute; reflexivity|]. vm_compute; reflexivity.
  - vm_compute; reflexivity.
  - intros Hinc.
    specialize (Hinc 0 1 firstId secondId ltac:(lia) eq_refl eq_refl).
    vm_compute in Hinc. discriminate.
  - eexists _, _, _, _. split; [vm_compute; reflexivity|].
    split; [vm_compute; reflexivity|].
    split; [vm_compute; reflexivity|]. vm_compute; reflexivity.
Qed.

Lemma C7_registered_metadata_witness :
  ∃ token p',
    registerFunction startup 1 7 = inr (token, p')
    ∧ functions (channel p') !! "0" = Some {| metadata := 1; callback := 7 |}
    ∧ functionId (objects p' 1) = Some "0"
    ∧ scriptFile (objects p' 1) = Some "n/a"
    ∧ rawBindings (objects p' 1) = Some ["req:in:httpTrigger"; "res:out:http"; "doc:-:blob"]
    ∧ name (objects p' 1) = "f1".
Proof.
  destruct (C7_registered_metadata startup 1 7 eq_refl)
    as (token & p' & Hreg & _ & Hlook & Hid & Hscript & Hraws & Hname & _).
  rewrite sample_first_uuid in Hlook, Hid.
  exists token, p'.
  split_and!; [exact Hreg | exact Hlook | exact Hid | exact Hscript | | exact Hname].
  destruct Hraws as (raws & -> & Hlen & Hraws).
  f_equal. apply list_eq. intros [|[|[|i]]].
  - apply (Hraws 0 _ _ eq_refl).
  - apply (Hraws 1 _ _ eq_refl).
  - apply (Hraws 2 _ _ eq_refl).
  - simpl. apply lookup_ge_None_2. simpl in Hlen. lia.
Defined.

End RegistryRuns.

Section StartAppRuns.
Import Errors Rpc StartApp Sample.

(** The hooks of the test [allows different appStart hooks to share data]:
    the second hook sees what the first one wrote, and the channel holds
    it. *)
Example startApp_hooks_share_data :
  let run := @startApp string (sampleApp [hookSetsHello; hookCopiesHello]) "/app" freshStore in
  run.2 = inr tt
  ∧ heap run.1 !! 2 = Some {[ "hello" := VString "world" ]}
  ∧ heap run.1 !! 1 = Some {[ "seen" := VString "world" ]}
  ∧ logMessage <$> logs run.1 =
      ["Executing 2 " +:+ dquote +:+ "appStart" +:+ dquote +:+ " hooks";
       "Executed " +:+ dquote +:+ "appStart" +:+ dquote +:+ " hooks"].
Proof. vm_compute. split_and!; reflexivity. Qed.

(** The hook of the test [enforces readonly property of hookData and
    appHookData in appStart contexts], without its [expect]: the assignment
    throws and the hook-data objects are as they were. *)
Example startApp_hook_assignment_throws :
  let run := @startApp string (sampleApp [hookAssignsHookData 7]) "/app" freshStore in
  (∃ error, run.2 = inl (ThrownError error)
            ∧ message error = "Cannot assign to read only property 'hookData'")
  ∧ heap run.1 = heap freshStore
  ∧ channel run.1 = channel freshStore.
Proof.
  vm_compute. split_and!; [|reflexivity..]. eexists. split; reflexivity.
Qed.

End StartAppRuns.

(** * Part III: further properties of the three files *)

(** ** The dispatch loop: what one message can cause *)
Section DispatchFurther.
Import Errors Rpc SetupEventStream Shapes.
Context {Request Body W NonError : Type}.
Context `{!@Collaborators Request Body W NonError}.

Implicit Types (inMsg : @InMsg Request) (w : W).
Implicit Types (wr : @Writer Request Body NonError).
Implicit Types (m out : @OutMsg Body).

Lemma route_terminate_name eventName name :
  route eventName = RouteTerminate name →
  eventName = Some "workerTerminate" ∧ name = "workerTerminate".
Proof.
  destruct eventName as [n|]; [|done]. unfold route.
  repeat match goal with
  | |- context [String.eqb n ?s] => destruct (String.eqb_spec n s) as [->|_]
  end; intros; simplify_eq; done.
Qed.

(** While it handles a message the dispatcher calls [write] at most once, on
    an envelope that carries the request id and has one of the shapes above;
    the promise can only reject with what that call threw, and only when the
    call is the one after the [try] statement. *)
Lemma handleMessage_write_call wr inMsg w :
  (written (handleMessage wr inMsg w).1.1 = []
   ∧ (handleMessage wr inMsg w).2 = Resolved)
  ∨ ∃ out,
      requestId out = inRequestId inMsg
      ∧ envelopeShape inMsg out
      ∧ written (handleMessage wr inMsg w).1.1 = written (wr out).1
      ∧ ((handleMessage wr inMsg w).2 = Resolved
         ∨ (∃ name h, route (content inMsg) = RouteHandler name h)
           ∧ (handleMessage wr inMsg w).2 = outcomeOf (wr out).2).
Proof.
  unfold handleMessage, tryBlock, catchBlock, finalWrite, nonNullProp, setField.
  repeat (case_match; simplify_eq/=);
  rewrite ?written_app, ?written_logs, ?written_logSystemError, ?app_nil_r.
  all: try (left; split; reflexivity).
  all: match goal with
       | Hw : _ ?o = (_, _) |- _ =>
           right; exists o; rewrite Hw; simpl; split_and!;
           [ reflexivity
           | unfold envelopeShape; simpl; rewrite ?insert_empty;
             first [ left; reflexivity
                   | right; left; reflexivity
                   | right; right; eexists _, _, _, _;
                     split_and!; [eassumption | reflexivity | reflexivity |];
                     first [ left; split; reflexivity
                           | right; split; [reflexivity | by eexists] ] ]
           | reflexivity
           | first [ right; split; [by eauto | reflexivity] | left; reflexivity ] ]
       end.
Qed.

Lemma workerStream_written out :
  written (write workerStream out).1 =
    match verify out with Some _ => [] | None => [out] end.
Proof.
  rewrite workerStream_write. unfold checkWrite, transportWrite.
  by destruct (verify out).
Qed.

(** X1: one run of [handleMessage] calls [write] at most once itself: for
    the acknowledgement of a status probe or for the reply after the [try]
    statement, never for both.  The first part runs it on a [write] that
    records every call and never throws, the second on the worker's wrapped
    [write].  The entries given to [worker.log], which the worker also sends
    over the stream as [rpcLog] envelopes, are kept apart as [WorkerLog]
    effects and are not counted, and neither is what a handler sends. *)
Theorem handleMessage_writes_at_most_one_reply inMsg w :
  length (written (handleMessage transportWrite inMsg w).1.1) ≤ 1
  ∧ length (written (handleMessage (write workerStream) inMsg w).1.1) ≤ 1.
Proof.
  split.
  - destruct (handleMessage_write_call transportWrite inMsg w)
      as [[-> _]|(out & _ & _ & -> & _)]; simpl; lia.
  - destruct (handleMessage_write_call (write workerStream) inMsg w)
      as [[-> _]|(out & _ & _ & -> & _)]; [simpl; lia|].
    rewrite workerStream_written. destruct (verify out); simpl; lia.
Qed.

(** X2: the envelope [handleMessage] itself gives to [write], whether
    [write] is the recording one or the worker's wrapped one, carries the
    request id and holds nothing else, or the empty [workerStatusResponse],
    or exactly one response under the handler's response name with its
    [result] set: success without exception, or failure with an exception.
    The [rpcLog] envelopes of [worker.log] are not among them. *)
Theorem reply_envelope_has_one_shape inMsg w m :
  m ∈ written (handleMessage transportWrite inMsg w).1.1
  ∨ m ∈ written (handleMessage (write workerStream) inMsg w).1.1 →
  requestId m = inRequestId inMsg
  ∧ envelopeShape inMsg m
  ∧ size (outFields m) ≤ 1.
Proof.
  assert (Hout : (∃ out, m = out ∧ requestId out = inRequestId inMsg
                         ∧ envelopeShape inMsg out) →
                 requestId m = inRequestId inMsg ∧ envelopeShape inMsg m
                 ∧ size (outFields m) ≤ 1).
  { intros (out & -> & Hid & Hshape). split_and!; [done..|].
    destruct Hshape as [->|[->|(name & h & r & st & _ & -> & _)]].
    - rewrite map_size_empty. lia.
    - rewrite map_size_singleton. lia.
    - rewrite map_size_singleton. lia. }
  intros [Hm|Hm]; apply Hout.
  - destruct (handleMessage_write_call transportWrite inMsg w)
      as [[Hnone _]|(out & Hid & Hshape & Hsent & _)].
    + rewrite Hnone in Hm. by apply elem_of_nil in Hm.
    + rewrite Hsent in Hm. simpl in Hm. apply list_elem_of_singleton in Hm.
      by exists out.
  - destruct (handleMessage_write_call (write workerStream) inMsg w)
      as [[Hnone _]|(out & Hid & Hshape & Hsent & _)].
    + rewrite Hnone in Hm. by apply elem_of_nil in Hm.
    + rewrite Hsent, workerStream_written in Hm.
      destruct (verify out); [by apply elem_of_nil in Hm|].
      apply list_elem_of_singleton in Hm. by exists out.
Qed.

(** The promise rejects only through the call of [write] after the [try]
    statement, made on the envelope the run has built by then. *)
Lemma handleMessage_rejected_inv wr inMsg w err :
  (handleMessage wr inMsg w).2 = Rejected err →
  ∃ name h out,
    route (content inMsg) = RouteHandler name h
    ∧ requestId out = inRequestId inMsg
    ∧ (wr out).2 = Some err
    ∧ written (handleMessage wr inMsg w).1.1 = written (wr out).1
    ∧ (inFields inMsg !! name = None ∧ outFields out = ∅
       ∨ (∃ request logs w' response,
            inFields inMsg !! name = Some request
            ∧ handleEvent h request w = (logs, w', inr response)
            ∧ outFields out =
                {[ responseName h := Payload (setResult response successResult) ]})
       ∨ (∃ request logs w' thrown,
            inFields inMsg !! name = Some request
            ∧ handleEvent h request w = (logs, w', inl thrown)
            ∧ outFields out =
                {[ responseName h :=
                     Payload (setResult (getDefaultResponse h request)
                                (failureResult (ensureErrorType errorOfValue thrown))) ]})).
Proof.
  unfold handleMessage, tryBlock, catchBlock, finalWrite, nonNullProp, setField,
    outcomeOf.
  repeat (case_match; simplify_eq/=); intros Hrej; simplify_eq;
  rewrite ?written_app, ?written_logs, ?written_logSystemError, ?app_nil_r.
  all: match goal with
       | Hw : _ ?o = (_, Some _) |- _ =>
           eexists _, _, o; rewrite Hw; simpl; rewrite ?insert_empty;
           split_and!; [reflexivity | reflexivity | reflexivity | reflexivity |];
           first [ left; split; [assumption | reflexivity]
                 | right; left; eexists _, _, _, _;
                   split_and!; [eassumption | eassumption | reflexivity]
                 | right; right; eexists _, _, _, _;
                   split_and!; [eassumption | eassumption | reflexivity] ]
       end.
Qed.

(** X3: when the promise of [handleMessage] rejects, the kind has a handler
    and the rejection comes from the call of [write] after the [try]
    statement, on the envelope built by then: the request id alone when the
    content property is missing, else the handler's response marked as a
    success, else its default response marked as a failure with the error's
    message and stack.  Either that envelope fails the verification of
    [checkWrite], the rejection is that system error and the stream's own
    [write] was not called; or it passes and the rejection is what the
    stream's own [write] threw on it.  A throw of [handleEvent], of
    [nonNullProp] or of [terminateWorker] does not reject the promise.
    [getDefaultResponse] and [worker.log] return here, as [EventHandler] and
    [Effect] type them. *)
Theorem handleMessage_rejects_only_by_final_write (eventStream : EventStream)
    inMsg w err :
  (handleMessage (write (setupEventStream eventStream)) inMsg w).2 = Rejected err →
  ∃ name h out,
    route (content inMsg) = RouteHandler name h
    ∧ requestId out = inRequestId inMsg
    ∧ (inFields inMsg !! name = None ∧ outFields out = ∅
       ∨ (∃ request logs w' response,
            inFields inMsg !! name = Some request
            ∧ handleEvent h request w = (logs, w', inr response)
            ∧ outFields out =
                {[ responseName h := Payload (setResult response successResult) ]})
       ∨ (∃ request logs w' thrown,
            inFields inMsg !! name = Some request
            ∧ handleEvent h request w = (logs, w', inl thrown)
            ∧ outFields out =
                {[ responseName h :=
                     Payload (setResult (getDefaultResponse h request)
                                (failureResult (ensureErrorType errorOfValue thrown))) ]}))
    ∧ ((∃ msgError,
          verify out = Some msgError
          ∧ err = ThrownError (AzFuncSystemError captureStack msgError)
          ∧ written (handleMessage (write (setupEventStream eventStream)) inMsg w).1.1 = [])
       ∨ (verify out = None ∧ (write eventStream out).2 = Some err)).
Proof.
  intros Hrej.
  destruct (handleMessage_rejected_inv _ _ _ _ Hrej)
    as (name & h & out & Hroute & Hid & Hthrown & Hsent & Hbuilt).
  exists name, h, out. split_and!; [done..|].
  rewrite Hsent. clear Hsent Hrej. simpl in *. unfold checkWrite in *.
  destruct (verify out) as [msgError|]; simpl in *.
  - left. exists msgError. split_and!; [done| |done]. by injection Hthrown as <-.
  - by right.
Qed.


(** X4: a status probe whose acknowledgement fails the verification is
    answered by nothing: the failure is reported by [systemError], caught by
    the [try] statement, logged once more as a system error, and the promise
    resolves. *)
Theorem status_probe_malformed_ack_swallowed inMsg w msgError :
  content inMsg = Some "workerStatusRequest" →
  verify {| requestId := inRequestId inMsg;
            outFields := {[ "workerStatusResponse" := EmptyObject ]} |} = Some msgError →
  handleMessage (write workerStream) inMsg w =
    ([SystemErrorLog "Worker malformed message" msgError;
      WorkerLog {| logMessage := msgError;
                   level := LevelError;
                   logCategory := CategorySystem |}], w, Resolved).
Proof.
  intros Hc Hv.
  unfold handleMessage, tryBlock, catchBlock, finalWrite, setField. simpl.
  rewrite Hc. simpl. rewrite insert_empty. unfold checkWrite. by rewrite Hv.
Qed.

(** X5: wrapping [write] a second time changes nothing about a call of
    [write]: after [setupEventStream] has run twice, a message is rejected
    with one log entry, or handed to the transport once, as after the first
    run. *)
Theorem setupEventStream_twice_same_write (eventStream : EventStream) out :
  write (setupEventStream (setupEventStream eventStream)) out =
  write (setupEventStream eventStream) out.
Proof. simpl. unfold checkWrite. by destruct (verify out). Qed.

(** X6: [terminateWorker] is called for no message but a [workerTerminate]
    whose property is set, and then on that property. *)
Theorem terminateWorker_only_for_workerTerminate inMsg w r :
  TerminateCall r ∈ (handleMessage (write workerStream) inMsg w).1.1 →
  content inMsg = Some "workerTerminate"
  ∧ inFields inMsg !! "workerTerminate" = Some r.
Proof.
  rewrite workerStream_write.
  unfold handleMessage, tryBlock, catchBlock, finalWrite, nonNullProp, checkWrite,
    transportWrite, logSystemError.
  intros Hin.
  repeat (case_match; simplify_eq/=);
  repeat match goal with
  | Hf : _ ∈ _ ++ _ |- _ => rewrite elem_of_app in Hf
  | Hf : _ ∈ _ :: _ |- _ => rewrite elem_of_cons in Hf
  | Hor : _ ∨ _ |- _ => destruct Hor as [Hor|Hor]
  | Hf : _ ∈ [] |- _ => by apply elem_of_nil in Hf
  | Hf : TerminateCall _ ∈ (WorkerLog <$> _) |- _ =>
      by apply list_elem_of_fmap in Hf as (? & ? & _)
  | Hf : TerminateCall _ = _ |- _ => first [discriminate Hf | injection Hf as ->]
  | Hr : route _ = RouteTerminate _ |- _ =>
      apply route_terminate_name in Hr as [Hr ->]
  end; done.
Qed.

End DispatchFurther.

(** ** The registry: disposal *)
Section RegistryFurther.
Import Errors Rpc RegisterFunction.
Context {Props Other Callback : Type}.
Context `{!@Collaborators Props}.

Implicit Types (p : @Process Props Other Callback).
Implicit Types (ref : nat) (cb : Callback).

(** What a token does during startup, whatever the registry holds by then. *)
Lemma dispose_startup p0 ref cb token p1 p :
  registerFunction p0 ref cb = inr (token, p1) →
  hasIndexedFunctions (channel p) = false →
  dispose token p =
    inr {| channel := {| hasIndexedFunctions := false;
                         functions := delete (uuid (uuidCalls p0)) (functions (channel p)) |};
           uuidCalls := uuidCalls p;
           objects := objects p |}.
Proof.
  intros Hreg Hidx. unfold registerFunction in Hreg.
  destruct (hasIndexedFunctions (channel p0)); [discriminate|].
  injection Hreg as <- _. simpl. unfold disposeFunction. by rewrite Hidx.
Qed.

(** X7: during startup, registering a function and disposing of it at once
    gives the registry back the entries it had: the same keys with the same
    object references and callbacks.  The disposal does not undo the
    assignments to the caller's metadata object, which keeps its
    [functionId], [rawBindings] and [scriptFile]; the other objects are
    untouched; the identifier is spent, so a later registration draws
    another one. *)
Theorem register_then_dispose_restores_registry p ref cb :
  Inj (=) (=) uuid → drawnOnly p →
  hasIndexedFunctions (channel p) = false →
  ∃ token p1 p2,
    registerFunction p ref cb = inr (token, p1)
    ∧ dispose token p1 = inr p2
    ∧ functions (channel p2) = functions (channel p)
    ∧ hasIndexedFunctions (channel p2) = false
    ∧ uuidCalls p2 = S (uuidCalls p)
    ∧ objects p2 = objects p1
    ∧ functionId (objects p2 ref) = Some (uuid (uuidCalls p))
    ∧ scriptFile (objects p2 ref) = Some "n/a"
    ∧ is_Some (rawBindings (objects p2 ref))
    ∧ ∀ ref', ref' ≠ ref → objects p2 ref' = objects p ref'.
Proof.
  intros Hinj Hinv Hidx.
  pose proof (registerFunction_open p ref cb Hidx) as Hreg.
  eexists _, _, _. split; [exact Hreg|].
  rewrite (dispose_startup _ _ _ _ _ _ Hreg) by done.
  split; [reflexivity|]. simpl. rewrite fn_lookup_insert. simpl.
  split_and!; try done.
  - apply delete_insert_id. by apply next_uuid_fresh.
  - intros ref' Hne. by rewrite fn_lookup_insert_ne.
Qed.

(** X8: during startup a token removes the entry of its own registration
    and no other; when that entry is gone already, nothing changes. *)
Theorem dispose_removes_own_entry_only p0 ref cb token p1 p :
  registerFunction p0 ref cb = inr (token, p1) →
  hasIndexedFunctions (channel p) = false →
  ∃ p', dispose token p = inr p'
        ∧ functions (channel p') !! uuid (uuidCalls p0) = None
        ∧ (∀ id, id ≠ uuid (uuidCalls p0) →
             functions (channel p') !! id = functions (channel p) !! id)
        ∧ (functions (channel p) !! uuid (uuidCalls p0) = None →
             functions (channel p') = functions (channel p))
        ∧ hasIndexedFunctions (channel p') = false
        ∧ uuidCalls p' = uuidCalls p.
Proof.
  intros Hreg Hidx. eexists. split; [by eapply dispose_startup|]. simpl.
  split_and!; try done.
  - apply lookup_delete_eq.
  - intros id Hid. by apply lookup_delete_ne.
  - apply delete_id.
Qed.

(** X9: a run of registrations during startup adds one entry per call:
    none is lost, merged with another or written over an earlier one. *)
Theorem registerAll_adds_one_entry_per_call (calls : list (nat * Callback)) p :
  Inj (=) (=) uuid → drawnOnly p →
  hasIndexedFunctions (channel p) = false →
  ∃ tokens p',
    registerAll calls p = inr (tokens, p')
    ∧ size (functions (channel p')) = size (functions (channel p)) + length calls
    ∧ dom (functions (channel p')) =
        dom (functions (channel p)) ∪ list_to_set (uuid <$> seq (uuidCalls p) (length calls)).
Proof.
  intros Hinj. revert p. induction calls as [|[ref cb] rest IH]; intros p Hinv Hidx.
  - exists [], p. split; [done|]. simpl. split; [lia|].
    by rewrite (right_id_L ∅ (∪)).
  - cbn [registerAll]. rewrite (registerFunction_open p ref cb Hidx).
    set (rf := {| metadata := ref; callback := cb |}).
    set (p1 := {| channel := _ |}).
    destruct (IH p1 (drawnOnly_insert p rf _ Hinv) eq_refl)
      as (tokens & p' & -> & Hsize & Hdom).
    eexists _, p'. split; [reflexivity|]. simpl in Hsize, Hdom.
    rewrite map_size_insert_None in Hsize by by apply next_uuid_fresh.
    split; [simpl; lia|].
    rewrite Hdom, dom_insert_L. simpl.
    by rewrite (comm_L (∪) {[uuid (uuidCalls p)]}), (assoc_L (∪)).
Qed.

(** X19: the registry holds the caller's object, not a copy.  When an
    object that is registered already is registered once more, the earlier
    entry stays under its key with its callback, but the object it refers to
    now carries the identifier of the later registration. *)
Theorem reregistration_overwrites_functionId p ref cb0 cb id0 :
  hasIndexedFunctions (channel p) = false →
  functions (channel p) !! id0 = Some {| metadata := ref; callback := cb0 |} →
  id0 ≠ uuid (uuidCalls p) →
  ∃ token p',
    registerFunction p ref cb = inr (token, p')
    ∧ functions (channel p') !! id0 = Some {| metadata := ref; callback := cb0 |}
    ∧ functions (channel p') !! uuid (uuidCalls p)
      = Some {| metadata := ref; callback := cb |}
    ∧ functionId (objects p' ref) = Some (uuid (uuidCalls p))
    ∧ functionId (objects p' ref) ≠ Some id0.
Proof.
  intros Hidx Hold Hne.
  eexists _, _. split; [by apply registerFunction_open|]. simpl.
  rewrite fn_lookup_insert. simpl. split_and!.
  - by rewrite lookup_insert_ne.
  - apply lookup_insert_eq.
  - done.
  - congruence.
Qed.

End RegistryFurther.

(** ** Loading the entry point and starting the application *)
Section StartAppFurther.
Import Errors Rpc StartApp Shapes.
Context {NonError : Type}.
Context `{!@Collaborators NonError}.

Implicit Types (st : Store) (v : Value).

(** With a pattern, [loadEntryPointFile] is its [try] statement. *)
Lemma loadEntryPointFile_with_pattern functionAppDirectory st pattern :
  main (packageJson (channel st)) = Some pattern →
  pattern ≠ EmptyString →
  loadEntryPointFile functionAppDirectory st =
    match loadFiles functionAppDirectory pattern st with
    | (st', inl err) => (st', inl (ThrownError (rethrown pattern err)))
    | (st', inr u) => (st', inr u)
    end.
Proof.
  intros Hmain Hne. unfold loadEntryPointFile.
  unfold bind at 1. unfold gets at 1. rewrite Hmain.
  rewrite bool_decide_eq_false_2 by done.
  unfold tryCatch. by destruct (loadFiles _ _ st) as [st' [err|u]].
Qed.

(** X10: without an entry point in [package.json], be it absent or the empty
    string, [loadEntryPointFile] returns at once: nothing is looked up,
    loaded or logged. *)
Theorem loadEntryPointFile_without_pattern functionAppDirectory st :
  main (packageJson (channel st)) = None
  ∨ main (packageJson (channel st)) = Some EmptyString →
  loadEntryPointFile functionAppDirectory st = (st, inr tt).
Proof.
  intros Hmain. unfold loadEntryPointFile, bind, gets.
  by destruct Hmain as [->| ->].
Qed.

(** X11: when the pattern matches no file, [loadEntryPointFile] throws the
    error built for that case, flagged as an internal exception and with the
    message that names the pattern and ends with [Found zero files matching
    the supplied pattern]; its stack is the one the engine gives that error
    once the message is rewritten.  No file is loaded and nothing is
    logged. *)
Theorem loadEntryPointFile_no_file_matches functionAppDirectory st pattern st1 :
  main (packageJson (channel st)) = Some pattern →
  pattern ≠ EmptyString →
  globby pattern functionAppDirectory st = (st1, inr []) →
  let newMessage :=
    "Worker was unable to load entry point " +:+ dquote +:+ pattern
    +:+ dquote +:+ ": Found zero files matching the supplied pattern" in
  loadEntryPointFile functionAppDirectory st =
    (st1, inl (ThrownError
       {| message := newMessage;
          stack := restack (Error captureStack
                              "Found zero files matching the supplied pattern")
                     newMessage;
          isAzureFunctionsSystemError := false;
          isAzureFunctionsInternalException := true |})).
Proof.
  intros Hmain Hne Hfiles newMessage.
  rewrite (loadEntryPointFile_with_pattern _ _ _ Hmain Hne).
  unfold loadFiles. unfold bind at 1. rewrite Hfiles. reflexivity.
Qed.

Lemma loadEntryPointFile_throw_inv functionAppDirectory st st' err :
  loadEntryPointFile functionAppDirectory st = (st', inl err) →
  ∃ pattern thrown,
    main (packageJson (channel st)) = Some pattern
    ∧ pattern ≠ EmptyString
    ∧ loadFiles functionAppDirectory pattern st = (st', inl thrown)
    ∧ err = ThrownError (rethrown pattern thrown).
Proof.
  destruct (main (packageJson (channel st))) as [pattern|] eqn:Hmain.
  - destruct (decide (pattern = EmptyString)) as [->|Hne].
    + rewrite loadEntryPointFile_without_pattern by eauto. discriminate.
    + rewrite (loadEntryPointFile_with_pattern _ _ _ Hmain Hne).
      destruct (loadFiles functionAppDirectory pattern st) as [st1 [thrown|u]] eqn:Hrun;
        [|discriminate].
      intros [= <- <-]. exists pattern, thrown. split_and!; done.
  - rewrite loadEntryPointFile_without_pattern by eauto. discriminate.
Qed.

(** X12: whatever the [try] statement of [loadEntryPointFile] throws, be it
    an error or any other value, what leaves the function is an error object
    flagged as an internal exception; its message is the message of the
    thrown value behind the pattern's prefix, its system flag is that of the
    thrown value, and its stack is the one the engine gives the thrown error
    once the message is rewritten. *)
Theorem loadEntryPointFile_errors_are_wrapped functionAppDirectory st st' err :
  loadEntryPointFile functionAppDirectory st = (st', inl err) →
  ∃ pattern thrown error,
    main (packageJson (channel st)) = Some pattern
    ∧ pattern ≠ EmptyString
    ∧ loadFiles functionAppDirectory pattern st = (st', inl thrown)
    ∧ err = ThrownError error
    ∧ isAzureFunctionsInternalException error = true
    ∧ message error =
        "Worker was unable to load entry point " +:+ dquote +:+ pattern
        +:+ dquote +:+ ": " +:+ message (ensureErrorType errorOfValue thrown)
    ∧ stack error = restack (ensureErrorType errorOfValue thrown) (message error)
    ∧ isAzureFunctionsSystemError error =
        isAzureFunctionsSystemError (ensureErrorType errorOfValue thrown).
Proof.
  intros (pattern & thrown & Hmain & Hne & Hrun & ->)%loadEntryPointFile_throw_inv.
  by exists pattern, thrown, (rethrown pattern thrown).
Qed.

(** X13: when the first matched file fails to load, the loading stops
    there: its [Loaded] entry is not logged, the files after it are not
    touched, and the failure is thrown again flagged, with the prefixed
    message and the stack the engine gives it then. *)
Theorem loadEntryPointFile_stops_at_failing_file
    functionAppDirectory st pattern st1 file rest st2 err :
  main (packageJson (channel st)) = Some pattern →
  pattern ≠ EmptyString →
  globby pattern functionAppDirectory st = (st1, inr (file :: rest)) →
  loadScriptFile (path_join functionAppDirectory file) (packageJson (channel st1))
    (logged st1 [debugLog ("Loading entry point file " +:+ dquote +:+ file +:+ dquote)])
    = (st2, inl err) →
  let error := ensureErrorType errorOfValue err in
  let newMessage :=
    "Worker was unable to load entry point " +:+ dquote +:+ pattern
    +:+ dquote +:+ ": " +:+ message error in
  loadEntryPointFile functionAppDirectory st =
    (st2, inl (ThrownError
       {| message := newMessage;
          stack := restack error newMessage;
          isAzureFunctionsSystemError := isAzureFunctionsSystemError error;
          isAzureFunctionsInternalException := true |})).
Proof.
  intros Hmain Hne Hfiles Hload error newMessage.
  rewrite (loadEntryPointFile_with_pattern _ _ _ Hmain Hne).
  unfold loadFiles. unfold bind at 1. rewrite Hfiles.
  rewrite bool_decide_eq_false_2 by done.
  cbn [forOf]. unfold bind at 1. unfold bind at 1. unfold log at 1.
  unfold bind at 1. unfold gets at 1. simpl. unfold bind at 1.
  unfold logged in Hload. by rewrite Hload.
Qed.

Lemma forOf_loading_logs functionAppDirectory (files : list string) :
  (∀ file pj s, file ∈ files →
     ∃ s', loadScriptFile (path_join functionAppDirectory file) pj s = (s', inr tt)
           ∧ logs s' = logs s) →
  ∀ st, ∃ st',
    forOf files (λ file,
      bind (log (debugLog ("Loading entry point file " +:+ dquote +:+ file +:+ dquote))) (λ _,
      bind (gets (λ s, packageJson (channel s))) (λ pj,
      bind (loadScriptFile (path_join functionAppDirectory file) pj) (λ _,
      log (debugLog ("Loaded entry point file " +:+ dquote +:+ file +:+ dquote))))))
      st = (st', inr tt)
    ∧ logs st' = logs st ++ flat_map loadingLog files.
Proof.
  induction files as [|file files IH]; intros Hload st.
  - exists st. split; [done|]. simpl. by rewrite app_nil_r.
  - cbn [forOf]. unfold bind at 1. unfold bind at 1. unfold log at 1.
    unfold bind at 1. unfold gets at 1. simpl. unfold bind at 1.
    match goal with
    | |- context [loadScriptFile ?path ?pj ?s] =>
        destruct (Hload file pj s) as (s' & -> & Hlogs); [by left|]
    end.
    unfold log at 1. simpl in Hlogs.
    match goal with
    | |- context [forOf files ?body ?s] =>
        destruct (IH (λ f pj s0 Hf, Hload f pj s0 (list_elem_of_further _ _ _ Hf)) s)
          as (st' & -> & Hlogs')
    end.
    exists st'. split; [done|]. rewrite Hlogs'. simpl. rewrite Hlogs.
    by rewrite <- !app_assoc.
Qed.

(** X14: when every matched file loads, and loading does not log by itself,
    [loadEntryPointFile] returns and the log has grown by one [Loading] and
    one [Loaded] entry per file, in the order of the files. *)
Theorem loadEntryPointFile_logs_each_file functionAppDirectory st pattern st1 files :
  main (packageJson (channel st)) = Some pattern →
  pattern ≠ EmptyString →
  globby pattern functionAppDirectory st = (st1, inr files) →
  files ≠ [] →
  (∀ file pj s, file ∈ files →
     ∃ s', loadScriptFile (path_join functionAppDirectory file) pj s = (s', inr tt)
           ∧ logs s' = logs s) →
  ∃ st2,
    loadEntryPointFile functionAppDirectory st = (st2, inr tt)
    ∧ logs st2 = logs st1 ++ flat_map loadingLog files.
Proof.
  intros Hmain Hne Hfiles Hsome Hload.
  rewrite (loadEntryPointFile_with_pattern _ _ _ Hmain Hne).
  unfold loadFiles. unfold bind at 1. rewrite Hfiles.
  rewrite bool_decide_eq_false_2 by by destruct files.
  destruct (forOf_loading_logs functionAppDirectory files Hload st1)
    as (st2 & -> & Hlogs).
  by exists st2.
Qed.

(** X15: [startApp] executes the [appStart] hooks only after the package
    file was read and the entry point loaded: a throw of either step is the
    throw of [startApp], and one that comes from the entry point is flagged
    as an internal exception. *)
Theorem startApp_failure_skips_hooks functionAppDirectory st :
  (∀ st1 err, updatePackageJson functionAppDirectory st = (st1, inl err) →
     startApp functionAppDirectory st = (st1, inl err))
  ∧ (∀ st1 st2 err,
       updatePackageJson functionAppDirectory st = (st1, inr tt) →
       loadEntryPointFile functionAppDirectory st1 = (st2, inl err) →
       startApp functionAppDirectory st = (st2, inl err)
       ∧ ∃ error, err = ThrownError error
                  ∧ isAzureFunctionsInternalException error = true)
  ∧ (∀ st1 st2,
       updatePackageJson functionAppDirectory st = (st1, inr tt) →
       loadEntryPointFile functionAppDirectory st1 = (st2, inr tt) →
       startApp functionAppDirectory st =
         executeHooks "appStart" (appStartContext functionAppDirectory) st2).
Proof.
  unfold startApp. split_and!.
  - intros st1 err Hupdate. unfold bind at 1. by rewrite Hupdate.
  - intros st1 st2 err Hupdate Hload. unfold bind at 1. rewrite Hupdate.
    unfold bind at 1. rewrite Hload. split; [done|].
    apply loadEntryPointFile_throw_inv in Hload as (pattern & thrown & _ & _ & _ & ->).
    by eexists.
  - intros st1 st2 Hupdate Hload. unfold bind at 1. rewrite Hupdate.
    unfold bind at 1. by rewrite Hload.
Qed.


(** X17: what is written into the object read from [hookData] does not
    show in [appHookData], and the other way round, as long as the channel's
    two properties refer to two objects. *)
Theorem hook_data_objects_are_separate functionAppDirectory st key v :
  appHookData (channel st) ≠ appLevelOnlyHookData (channel st) →
  let context := appStartContext functionAppDirectory in
  let st1 := (assignMember (NonError:=NonError)
                (readProperty context "hookData" st) key v st).1 in
  let st2 := (assignMember (NonError:=NonError)
                (readProperty context "appHookData" st) key v st).1 in
  (∀ k, readMember (readProperty context "appHookData" st1) k st1
        = readMember (readProperty context "appHookData" st) k st)
  ∧ (∀ k, readMember (readProperty context "hookData" st2) k st2
          = readMember (readProperty context "hookData" st) k st).
Proof.
  intros Hne context st1 st2.
  assert (Hhook : ∀ s, readProperty context "hookData" s
                       = VObject (appLevelOnlyHookData (channel s))).
  { intros s. unfold readProperty, context, appStartContext.
    by rewrite lookup_insert_eq. }
  assert (Happ : ∀ s, readProperty context "appHookData" s
                      = VObject (appHookData (channel s))).
  { intros s. unfold readProperty, context, appStartContext.
    by rewrite lookup_insert_ne, lookup_insert_eq. }
  subst st1 st2. rewrite !Hhook, !Happ. unfold assignMember, readMember.
  cbn [fst heap channel]. split; intros k.
  - by rewrite lookup_alter_ne.
  - by rewrite lookup_alter_ne.
Qed.

(** X18: [functionAppDirectory] is an ordinary property of the context:
    it reads as the directory [startApp] was called with and, unlike the two
    hook-data properties, an assignment to it succeeds; the hook-data
    accessors of the context stay in place and stay read-only. *)
Theorem functionAppDirectory_is_assignable functionAppDirectory st v v' :
  let context := appStartContext functionAppDirectory in
  readProperty context "functionAppDirectory" st = VString functionAppDirectory
  ∧ ∃ context',
      assignProperty context "functionAppDirectory" v st = (st, inr context')
      ∧ readProperty context' "functionAppDirectory" st = v
      ∧ readProperty context' "hookData" st = VObject (appLevelOnlyHookData (channel st))
      ∧ readProperty context' "appHookData" st = VObject (appHookData (channel st))
      ∧ assignProperty context' "hookData" v' st =
          (st, inl (ThrownError (ReadOnlyError captureStack "hookData")))
      ∧ assignProperty context' "appHookData" v' st =
          (st, inl (ThrownError (ReadOnlyError captureStack "appHookData"))).
Proof.
  intros context. unfold context, appStartContext, readProperty, assignProperty.
  rewrite !lookup_insert_ne, lookup_singleton_eq by done.
  split; [done|]. eexists. split; [reflexivity|].
  rewrite lookup_insert_eq.
  rewrite !(lookup_insert_ne _ "functionAppDirectory") by done.
  rewrite lookup_insert_eq, lookup_insert_ne, lookup_insert_eq by done.
  done.
Qed.

End StartAppFurther.

(** ** The further properties on the sample worker *)
Section DispatchFurtherRuns.
Import Errors Rpc SetupEventStream Shapes Sample.

Lemma reply_envelope_has_one_shape_witness :
  let inMsg := sampleIn "7" "invocationRequest" (Some "boom") in
  let m := {| requestId := "7";
              outFields :=
                {[ "invocationResponse" :=
                     Payload {| body := "default";
                                result := Some {| status := Failure;
                                                  exception := Some
                                                    {| exceptionMessage := "boom";
                                                       stackTrace := Some "Error: boom" |} |} |} ]} |} in
  requestId m = inRequestId inMsg ∧ envelopeShape inMsg m ∧ size (outFields m) ≤ 1.
Proof.
  intros inMsg m. apply (reply_envelope_has_one_shape inMsg 0 m). right.
  unfold inMsg. rewrite sample_run_throws. simpl.
  rewrite list_elem_of_singleton. reflexivity.
Defined.

Lemma handleMessage_rejects_only_by_final_write_witness :
  let inMsg := sampleIn "bad" "invocationRequest" (Some "hello") in
  ∃ name h out,
    route (content inMsg) = RouteHandler name h
    ∧ requestId out = "bad"
    ∧ (inFields inMsg !! name = None ∧ outFields out = ∅
       ∨ (∃ request logs w' response,
            inFields inMsg !! name = Some request
            ∧ handleEvent h request 0 = (logs, w', inr response)
            ∧ outFields out =
                {[ responseName h := Payload (setResult response successResult) ]})
       ∨ (∃ request logs w' thrown,
            inFields inMsg !! name = Some request
            ∧ handleEvent h request 0 = (logs, w', inl thrown)
            ∧ outFields out =
                {[ responseName h :=
                     Payload (setResult (getDefaultResponse h request)
                                (failureResult (ensureErrorType errorOfValue thrown))) ]}))
    ∧ ((∃ msgError,
          verify out = Some msgError
          ∧ ThrownError (NonError:=string)
              (AzFuncSystemError sampleStack "requestId: string expected")
            = ThrownError (AzFuncSystemError captureStack msgError)
          ∧ written (handleMessage (write workerStream) inMsg 0).1.1 = [])
       ∨ (verify out = None
          ∧ (transportWrite (Request:=string) out).2
            = Some (ThrownError (NonError:=string)
                      (AzFuncSystemError sampleStack "requestId: string expected")))).
Proof.
  intros inMsg.
  apply (handleMessage_rejects_only_by_final_write
           {| write := transportWrite; onData := []; onError := [] |} inMsg 0).
  vm_compute; reflexivity.
Defined.

Example sample_run_handled_twice :
  (emitData (setupEventStream workerStream)
     (sampleIn "7" "workerStatusRequest" (Some "probe")) 0).1.1
  = [ StreamWrite {| requestId := "7";
                     outFields := {[ "workerStatusResponse" := EmptyObject ]} |};
      StreamWrite {| requestId := "7";
                     outFields := {[ "workerStatusResponse" := EmptyObject ]} |} ].
Proof. vm_compute; reflexivity. Qed.

Lemma status_probe_malformed_ack_swallowed_witness :
  handleMessage (write workerStream) (sampleIn "bad" "workerStatusRequest" (Some "probe")) 3 =
    ([SystemErrorLog "Worker malformed message" "requestId: string expected";
      WorkerLog {| logMessage := "requestId: string expected";
                   level := LevelError;
                   logCategory := CategorySystem |}], 3, Resolved).
Proof.
  apply (status_probe_malformed_ack_swallowed
           (sampleIn "bad" "workerStatusRequest" (Some "probe")) 3).
  - reflexivity.
  - vm_compute; reflexivity.
Defined.

Lemma terminateWorker_only_for_workerTerminate_witness :
  content (sampleIn "4" "workerTerminate" (Some "bye")) = Some "workerTerminate"
  ∧ inFields (sampleIn "4" "workerTerminate" (Some "bye")) !! "workerTerminate" = Some "bye".
Proof.
  apply (terminateWorker_only_for_workerTerminate
           (sampleIn "4" "workerTerminate" (Some "bye")) 5 "bye").
  assert (Hrun : (handleMessage (write workerStream)
                    (sampleIn "4" "workerTerminate" (Some "bye")) 5).1.1
                 = [TerminateCall "bye"]) by (vm_compute; reflexivity).
  rewrite Hrun, list_elem_of_singleton. reflexivity.
Defined.

End DispatchFurtherRuns.

Section RegistryFurtherRuns.
Import Errors Rpc RegisterFunction Sample.

Lemma register_then_dispose_restores_registry_witness :
  ∃ token p1 p2,
    registerFunction startup 1 10 = inr (token, p1)
    ∧ dispose token p1 = inr p2
    ∧ functions (channel p2) = ∅
    ∧ uuidCalls p2 = 1
    ∧ functionId (objects p2 1) = Some "0"
    ∧ functionId (sampleObjects 1) = None.
Proof.
  destruct (register_then_dispose_restores_registry startup 1 10
              _ (drawnOnly_initial false _) eq_refl)
    as (token & p1 & p2 & Hreg & Hdis & Hfun & _ & Hcalls & _ & Hid & _).
  rewrite sample_first_uuid in Hid.
  exists token, p1, p2. split_and!; try done.
Defined.

Lemma dispose_removes_own_entry_only_witness :
  let p := {| channel :=
                {| hasIndexedFunctions := false;
                   functions := {[ "0" := {| metadata := 1; callback := 10 |};
                                   "1" := {| metadata := 2; callback := 20 |} ]} |};
              uuidCalls := 2;
              objects := sampleObjects |} in
  ∃ token p1 p',
    registerFunction startup 1 10 = inr (token, p1)
    ∧ dispose token p = inr p'
    ∧ functions (channel p') !! "0" = None
    ∧ (∀ id, id ≠ "0" → functions (channel p') !! id = functions (channel p) !! id)
    ∧ hasIndexedFunctions (channel p') = false
    ∧ uuidCalls p' = 2.
Proof.
  intros p.
  destruct (registerFunction startup 1 10) as [e|[token p1]] eqn:Hreg;
    [vm_compute in Hreg; discriminate|].
  destruct (dispose_removes_own_entry_only startup 1 10 token p1 p
              Hreg eq_refl) as (p' & Hrun & Hgone & Hkept & _ & Hidx & Hcalls).
  rewrite sample_first_uuid in Hgone, Hkept. by exists token, p1, p'.
Defined.

Lemma registerAll_adds_one_entry_per_call_witness :
  ∃ tokens p',
    registerAll [(1, 10); (1, 10); (2, 20)] startup = inr (tokens, p')
    ∧ size (functions (channel p')) = 3
    ∧ dom (functions (channel p')) = ∅ ∪ list_to_set ["0"; "1"; "2"].
Proof.
  destruct (registerAll_adds_one_entry_per_call [(1, 10); (1, 10); (2, 20)]
              startup _ (drawnOnly_initial false _) eq_refl)
    as (tokens & p' & Hrun & Hsize & Hdom).
  exists tokens, p'. split; [exact Hrun|]. split; [exact Hsize|].
  rewrite Hdom. simpl. by rewrite dom_empty_L.
Defined.

Lemma reregistration_overwrites_functionId_witness :
  let p := {| channel :=
                {| hasIndexedFunctions := false;
                   functions := {[ "0" := {| metadata := 1; callback := 10 |} ]} |};
              uuidCalls := 1;
              objects := <[1 := assign "0" (sampleObjects 1)]> sampleObjects |} in
  ∃ token p',
    registerFunction p 1 11 = inr (token, p')
    ∧ functions (channel p') !! "0" = Some {| metadata := 1; callback := 10 |}
    ∧ functions (channel p') !! "1" = Some {| metadata := 1; callback := 11 |}
    ∧ functionId (objects p 1) = Some "0"
    ∧ functionId (objects p' 1) = Some "1".
Proof.
  intros p.
  assert (Hu : uuid (uuidCalls p) = "1") by (vm_compute; reflexivity).
  destruct (reregistration_overwrites_functionId p 1 10 11 "0" eq_refl
              ltac:(vm_compute; reflexivity) ltac:(rewrite Hu; discriminate))
    as (token & p' & Hreg & Hold & Hnew & Hid & _).
  rewrite Hu in Hnew, Hid. exists token, p'. split_and!; try done.
Defined.

End RegistryFurtherRuns.

Section StartAppFurtherRuns.
Import Errors Rpc StartApp Shapes Sample EntryPointSample.

Lemma loadEntryPointFile_without_pattern_witness :
  @loadEntryPointFile string (loaderApp [] []) "/app" (storeWithMain None)
    = (storeWithMain None, inr tt)
  ∧ @loadEntryPointFile string (loaderApp [] []) "/app" (storeWithMain (Some EmptyString))
    = (storeWithMain (Some EmptyString), inr tt).
Proof.
  split.
  - apply (@loadEntryPointFile_without_pattern string (loaderApp [] [])). left. reflexivity.
  - apply (@loadEntryPointFile_without_pattern string (loaderApp [] [])). right. reflexivity.
Defined.

Lemma loadEntryPointFile_no_file_matches_witness :
  let newMessage :=
    "Worker was unable to load entry point " +:+ dquote +:+ "lib/*.js"
    +:+ dquote +:+ ": Found zero files matching the supplied pattern" in
  @loadEntryPointFile string (loaderApp [] []) "/app" (storeWithMain (Some "lib/*.js"))
    = (storeWithMain (Some "lib/*.js"),
       inl (ThrownError
         {| message := newMessage;
            stack := Some ("Error: " +:+ newMessage);
            isAzureFunctionsSystemError := false;
            isAzureFunctionsInternalException := true |})).
Proof.
  intros newMessage. etransitivity.
  - apply (@loadEntryPointFile_no_file_matches string (loaderApp [] []) "/app"
             (storeWithMain (Some "lib/*.js")) "lib/*.js"
             (storeWithMain (Some "lib/*.js"))).
    + reflexivity.
    + discriminate.
    + vm_compute; reflexivity.
  - vm_compute; reflexivity.
Defined.

Lemma loadEntryPointFile_errors_are_wrapped_witness :
  let newMessage :=
    "Worker was unable to load entry point " +:+ dquote +:+ "src/*.js"
    +:+ dquote +:+ ": Unexpected token" in
  ∃ pattern thrown error,
    main (packageJson (channel (storeWithMain (Some "src/*.js")))) = Some pattern
    ∧ thrown = ThrownValue "Unexpected token"
    ∧ error = {| message := newMessage;
                 stack := Some ("Error: " +:+ newMessage);
                 isAzureFunctionsSystemError := false;
                 isAzureFunctionsInternalException := true |}.
Proof.
  intros newMessage.
  destruct (@loadEntryPointFile_errors_are_wrapped string (loaderApp ["/app/extra.js"] [])
              "/app" (storeWithMain (Some "src/*.js"))
              (logged (storeWithMain (Some "src/*.js"))
                 (loadingLog "index.js" ++
                  [debugLog ("Loading entry point file " +:+ dquote +:+ "extra.js" +:+ dquote)]))
              (ThrownError {| message := newMessage;
                              stack := Some ("Error: " +:+ newMessage);
                              isAzureFunctionsSystemError := false;
                              isAzureFunctionsInternalException := true |})
              ltac:(vm_compute; reflexivity))
    as (pattern & thrown & error & Hmain & _ & Hrun & Herr & _).
  exists pattern, thrown, error. split; [exact Hmain|].
  assert (pattern = "src/*.js") as -> by (vm_compute in Hmain; congruence).
  vm_compute in Hrun. split; congruence.
Defined.

Lemma loadEntryPointFile_stops_at_failing_file_witness :
  let newMessage :=
    "Worker was unable to load entry point " +:+ dquote +:+ "src/*.js"
    +:+ dquote +:+ ": Unexpected token" in
  @loadEntryPointFile string (loaderApp ["/app/index.js"] []) "/app"
    (storeWithMain (Some "src/*.js"))
  = (logged (storeWithMain (Some "src/*.js"))
       [debugLog ("Loading entry point file " +:+ dquote +:+ "index.js" +:+ dquote)],
     inl (ThrownError
       {| message := newMessage;
          stack := Some ("Error: " +:+ newMessage);
          isAzureFunctionsSystemError := false;
          isAzureFunctionsInternalException := true |})).
Proof.
  intros newMessage. etransitivity.
  - apply (@loadEntryPointFile_stops_at_failing_file string (loaderApp ["/app/index.js"] [])
             "/app" (storeWithMain (Some "src/*.js")) "src/*.js"
             (storeWithMain (Some "src/*.js")) "index.js" ["extra.js"]
             (logged (storeWithMain (Some "src/*.js"))
                [debugLog ("Loading entry point file " +:+ dquote +:+ "index.js" +:+ dquote)])
             (ThrownValue "Unexpected token")).
    + reflexivity.
    + discriminate.
    + vm_compute; reflexivity.
    + vm_compute; reflexivity.
  - vm_compute; reflexivity.
Defined.

Lemma loadEntryPointFile_logs_each_file_witness :
  ∃ st2,
    @loadEntryPointFile string (loaderApp ["/app/main.js"] []) "/app"
      (storeWithMain (Some "src/*.js")) = (st2, inr tt)
    ∧ logs st2 = [] ++ flat_map loadingLog ["index.js"; "extra.js"].
Proof.
  apply (@loadEntryPointFile_logs_each_file string (loaderApp ["/app/main.js"] [])
           "/app" (storeWithMain (Some "src/*.js")) "src/*.js"
           (storeWithMain (Some "src/*.js")) ["index.js"; "extra.js"]).
  - reflexivity.
  - discriminate.
  - vm_compute; reflexivity.
  - discriminate.
  - intros file pj s Hfile. exists s.
    rewrite !elem_of_cons, elem_of_nil in Hfile.
    destruct Hfile as [->|[->|[]]]; split; reflexivity.
Defined.

Lemma startApp_failure_skips_hooks_witness :
  let newMessage :=
    "Worker was unable to load entry point " +:+ dquote +:+ "lib/*.js"
    +:+ dquote +:+ ": Found zero files matching the supplied pattern" in
  @startApp string (loaderApp [] [hookSetsHello]) "/app" (storeWithMain (Some "lib/*.js"))
    = (storeWithMain (Some "lib/*.js"),
       inl (ThrownError
         {| message := newMessage;
            stack := Some ("Error: " +:+ newMessage);
            isAzureFunctionsSystemError := false;
            isAzureFunctionsInternalException := true |})).
Proof.
  intros newMessage.
  apply (proj1 (proj2 (@startApp_failure_skips_hooks string (loaderApp [] [hookSetsHello])
                         "/app" (storeWithMain (Some "lib/*.js"))))
           (storeWithMain (Some "lib/*.js")) (storeWithMain (Some "lib/*.js"))).
  - reflexivity.
  - vm_compute; reflexivity.
Defined.


Lemma hook_data_objects_are_separate_witness :
  let context := @appStartContext string (loaderApp [] []) "/app" in
  let st1 := (assignMember (NonError:=string)
                (readProperty context "hookData" freshStore) "hello"
                (VString "world") freshStore).1 in
  readMember (readProperty context "appHookData" st1) "hello" st1
  = readMember (readProperty context "appHookData" freshStore) "hello" freshStore.
Proof.
  intros context st1.
  apply (proj1 (@hook_data_objects_are_separate string (loaderApp [] []) "/app" freshStore
                  "hello" (VString "world") ltac:(simpl; lia)) "hello").
Defined.

(** With one object behind both properties, as in [aliasedStore], a write
    through [hookData] does show in [appHookData]. *)
Example hook_data_aliased_objects_share_writes :
  let context := @appStartContext string (loaderApp [] []) "/app" in
  let st1 := (assignMember (NonError:=string)
                (readProperty context "hookData" aliasedStore) "hello"
                (VString "world") aliasedStore).1 in
  readMember (readProperty context "appHookData" st1) "hello" st1 = VString "world"
  ∧ readMember (readProperty context "appHookData" aliasedStore) "hello" aliasedStore
    = VUndefined.
Proof. vm_compute. split; reflexivity. Qed.

End StartAppFurtherRuns.
